(** * The chat-stream route (src/app/api/chat-stream/route.ts)

    A shallow embedding of the POST handler of the streaming chat endpoint:
    credential check, request decoding and validation, model selection,
    tool attachment, the streaming call with its grounding fallback, the
    relay loop that forwards chunks to the client, and the outer error
    classification.

    JavaScript strings are sequences of UTF-16 code units; JSON.parse
    results are a tagged union; the handler is an effectful program that
    can throw, so it is written in a small exception monad that also
    records, in order, every effect the handler performs on the outside
    world (body parse, model construction, provider calls, stream writes). *)

From Stdlib Require Import List NArith ZArith Bool String Ascii Lia.
Import ListNotations.

Local Open Scope N_scope.
Local Open Scope list_scope.

(** ** JavaScript strings *)

Module JsString.

Definition code_unit := N.
Definition js_string := list code_unit.

(** A source-level ASCII literal as a JavaScript string. *)
Definition lit (s : string) : js_string :=
  map N_of_ascii (list_ascii_of_string s).

Fixpoint eqb (a b : js_string) : bool :=
  match a, b with
  | [], [] => true
  | x :: a', y :: b' => N.eqb x y && eqb a' b'
  | _, _ => false
  end.

(** [s.startsWith(p)] *)
Fixpoint starts_with (p s : js_string) : bool :=
  match p, s with
  | [], _ => true
  | x :: p', y :: s' => N.eqb x y && starts_with p' s'
  | _ :: _, [] => false
  end.

(** [s.includes(needle)] *)
Fixpoint includes (needle s : js_string) : bool :=
  starts_with needle s ||
  match s with
  | [] => false
  | _ :: s' => includes needle s'
  end.

(** Removes [p] from the front of [s] when it is there. *)
Fixpoint strip_prefix (p s : js_string) : option js_string :=
  match p, s with
  | [], _ => Some s
  | x :: p', y :: s' => if N.eqb x y then strip_prefix p' s' else None
  | _ :: _, [] => None
  end.

(** Longest prefix of [s] whose code units satisfy [f], and the rest. *)
Fixpoint span (f : code_unit -> bool) (s : js_string) : js_string * js_string :=
  match s with
  | [] => ([], [])
  | c :: s' =>
      if f c then let '(a, b) := span f s' in (c :: a, b) else ([], s)
  end.

Definition between (lo hi c : N) : bool := N.leb lo c && N.leb c hi.

(** The regular-expression class [\w]: ASCII letters, digits, underscore. *)
Definition is_word (c : code_unit) : bool :=
  between 48 57 c || between 65 90 c || between 97 122 c || N.eqb c 95.

(** ECMAScript WhiteSpace and LineTerminator code points, the ones
    [String.prototype.trim] removes. *)
Definition is_space (c : code_unit) : bool :=
  between 9 13 c || N.eqb c 32 || N.eqb c 160 || N.eqb c 5760 ||
  between 8192 8202 c || N.eqb c 8232 || N.eqb c 8233 || N.eqb c 8239 ||
  N.eqb c 8287 || N.eqb c 12288 || N.eqb c 65279.

Fixpoint drop_while (f : code_unit -> bool) (s : js_string) : js_string :=
  match s with
  | [] => []
  | c :: s' => if f c then drop_while f s' else s
  end.

(** [s.trim()] *)
Definition trim (s : js_string) : js_string :=
  rev (drop_while is_space (rev (drop_while is_space s))).

(** [s] contains [needle] as a contiguous run of code units. *)
Definition contains (needle s : js_string) : Prop :=
  exists pre post, s = pre ++ needle ++ post.

End JsString.
Import JsString.

(** ** JSON values, as [request.json()] yields them *)

(** A JSON number is kept as an integer: the handler only ever asks whether
    a number is zero (truthiness) and what [typeof] says. *)
#[warnings="-register-all"]
Inductive value : Type :=
| JNull
| JBool (b : bool)
| JNum (z : Z)
| JStr (s : js_string)
| JArr (items : list value)
| JObj (fields : list (js_string * value)).

(** Property lookup on a parsed object. JSON.parse keeps the last of
    several members with one name. *)
Fixpoint get_field (k : js_string) (fields : list (js_string * value)) : option value :=
  match fields with
  | [] => None
  | (k', v) :: rest =>
      match get_field k rest with
      | Some v' => Some v'
      | None => if JsString.eqb k k' then Some v else None
      end
  end.

(** ToBoolean. [None] is [undefined]. *)
Definition truthy (v : option value) : bool :=
  match v with
  | None => false
  | Some JNull => false
  | Some (JBool b) => b
  | Some (JNum z) => negb (Z.eqb z 0)
  | Some (JStr s) => match s with [] => false | _ => true end
  | Some (JArr _) => true
  | Some (JObj _) => true
  end.

(** [v === s] for a string literal [s]. *)
Definition is_string (s : js_string) (v : value) : bool :=
  match v with
  | JStr t => JsString.eqb t s
  | _ => false
  end.

(** ** Thrown values *)

(** What a [catch] clause can receive: an [Error] instance with its
    message; some other object or primitive, whose [message] property is
    a string or is [undefined]; or [null] (and [undefined], which behaves
    alike), off which no property can be read. *)
Inductive thrown : Type :=
| TError (message : js_string)
| TOther (message : option js_string)
| TNullish.

(** Messages of the TypeErrors the engine raises (V8 wording). *)
Definition msg_destructure_null : js_string :=
  lit "Cannot destructure property 'message' of 'body' as it is null.".
Definition msg_map_not_function : js_string := lit "images.map is not a function".
Definition msg_replace_not_function : js_string := lit "base64.replace is not a function".
Definition msg_replace_of_null : js_string :=
  lit "Cannot read properties of null (reading 'replace')".
Definition msg_message_of_nullish : js_string :=
  lit "Cannot read properties of null (reading 'message')".
Definition msg_controller_closed : js_string :=
  lit "Invalid state: Controller is already closed".

(** ** What the handler sends and receives *)

(** [googleSearchTool = { googleSearch: {} }] is the only tool there is. *)
Inductive tool : Type := GoogleSearch.

Inductive part : Type :=
| TextPart (text : js_string)
| InlineData (data mimeType : js_string).

Record content : Type := { role : js_string; parts : list part }.

(** The argument of [generateContentStream]. [tools = None] is a request
    object without a [tools] property. *)
Record request_config : Type :=
  { contents : list content; tools : option (list tool) }.

(** The payload of one [data: ...] frame written to the outbound stream. *)
Inductive event : Type :=
| Token (token timestamp : js_string)
| Done
| ErrorEvent (message : js_string).

(** What the relay loop meets while it iterates [result.stream]: a chunk,
    with the text [chunk.text()] returns and the clock reading at that
    moment, or the client going away while the loop awaits the next chunk. *)
Inductive stream_item : Type :=
| Chunk (text stamp : js_string)
| Cancel.

(** The provider's asynchronous sequence: the items in arrival order, then
    either normal exhaustion ([None]) or a failure raised by the iterator
    or by [chunk.text()]. *)
Record upstream : Type :=
  { items : list stream_item; failure : option thrown }.

(** One [generateContentStream] call: it resolves with a stream, or rejects;
    [client_gone] tells whether the client went away while the call was
    pending. *)
Inductive call_result : Type :=
| Resolves (s : upstream)
| Rejects (client_gone : bool) (t : thrown).

Inductive response : Type :=
| JsonResponse (status : N) (fields : list (js_string * js_string))
| StreamResponse (headers : list (js_string * js_string)).

(** Everything outside the handler that one call of it depends on. *)
Record world : Type :=
  { env_key : option js_string;        (* process.env.GEMINI_API_KEY *)
    body : option value;               (* request.json(); None: it rejects *)
    model_init : js_string -> option thrown;  (* getGenerativeModel throws? *)
    provider : nat -> request_config -> call_result;
                                       (* the n-th generateContentStream call *)
    error_time : js_string }.          (* clock reading in the outer catch *)

(** The effects of the handler on the outside, in the order it performs
    them. *)
Inductive effect : Type :=
| ParseBody
| GetModel (name : js_string)
| Generate (cfg : request_config)
| Enqueue (e : event) (accepted : bool)
| Close (accepted : bool).

(** ** The handler monad *)

Inductive result (A : Type) : Type :=
| Ok (a : A)
| Throw (t : thrown).
Arguments Ok {A} a.
Arguments Throw {A} t.

(** A computation starts knowing whether the outbound stream has stopped
    accepting chunks (closed by the handler or cancelled by the client),
    and yields a value or a thrown value, the stream's new status and the
    effects it performed. *)
Definition M (A : Type) : Type := bool -> result A * bool * list effect.

Definition ret {A} (a : A) : M A := fun closed => (Ok a, closed, []).

Definition throw {A} (t : thrown) : M A := fun closed => (Throw t, closed, []).

Definition bind {A B} (m : M A) (f : A -> M B) : M B :=
  fun closed =>
    match m closed with
    | (Ok a, closed', l) =>
        let '(r, closed'', l') := f a closed' in (r, closed'', l ++ l')
    | (Throw t, closed', l) => (Throw t, closed', l)
    end.

(** [try { m } catch (e) { h e }] *)
Definition try_catch {A} (m : M A) (h : thrown -> M A) : M A :=
  fun closed =>
    match m closed with
    | (Ok a, closed', l) => (Ok a, closed', l)
    | (Throw t, closed', l) =>
        let '(r, closed'', l') := h t closed' in (r, closed'', l ++ l')
    end.

Definition emit (e : effect) : M unit := fun closed => (Ok tt, closed, [e]).

Declare Scope handler_scope.
Delimit Scope handler_scope with handler.
Notation "x <- m ;; k" := (bind m (fun x => k))
  (at level 61, m at next level, right associativity) : handler_scope.
Notation "m ;; k" := (bind m (fun _ => k))
  (at level 61, right associativity) : handler_scope.
Local Open Scope handler_scope.

(** [controller.enqueue(frame)]: a TypeError once the stream is closed. *)
Definition enqueue (e : event) : M unit :=
  fun closed =>
    if closed then (Throw (TError msg_controller_closed), closed, [Enqueue e false])
    else (Ok tt, closed, [Enqueue e true]).

(** [controller.close()] *)
Definition close : M unit :=
  fun closed =>
    if closed then (Throw (TError msg_controller_closed), true, [Close false])
    else (Ok tt, true, [Close true]).

(** The client cancels the response stream. *)
Definition client_cancels : M unit := fun _ => (Ok tt, true, []).

Definition value_of {A} (x : result A * bool * list effect) : result A := fst (fst x).
Definition closed_after {A} (x : result A * bool * list effect) : bool := snd (fst x).
Definition effects_of {A} (x : result A * bool * list effect) : list effect := snd x.

(** ** The handler *)

(** The data-URI pattern of [base64ToBuffer]: [^data:image\/\w+;base64,].
    The run of word characters is followed by [;], which is not one, so
    the longest run is the only one that can match. *)
Definition strip_data_uri (base64 : js_string) : js_string :=
  match strip_prefix (lit "data:image/") base64 with
  | None => base64
  | Some after_slash =>
      match span is_word after_slash with
      | ([], _) => base64
      | (_ :: _, after_type) =>
          match strip_prefix (lit ";base64,") after_type with
          | Some data => data
          | None => base64
          end
      end
  end.

(** The fields the handler destructures from the body; [None] is
    [undefined]. The two defaults apply to [undefined] only. *)
Record request : Type :=
  { message : option value;
    image : option value;
    images : option value;
    useGrounding : value;
    aiModel : value }.

Definition or_default (d : value) (v : option value) : value :=
  match v with
  | Some x => x
  | None => d
  end.

Definition fields_of (lookup : js_string -> option value) : request :=
  {| message := lookup (lit "message");
     image := lookup (lit "image");
     images := lookup (lit "images");
     useGrounding := or_default (JBool true) (lookup (lit "useGrounding"));
     aiModel := or_default (JStr (lit "smart")) (lookup (lit "aiModel")) |}.

(** [const { message, image, images, useGrounding = true,
    aiModel = 'smart' } = body]: a TypeError on [null]; none of the five
    names is a property of a boolean, number, string or array. *)
Definition destructure (b : value) : result request :=
  match b with
  | JNull => Throw (TError msg_destructure_null)
  | JObj fields => Ok (fields_of (fun k => get_field k fields))
  | _ => Ok (fields_of (fun _ => None))
  end.

Definition premium_model : js_string := lit "gemini-2.5-pro-preview-06-05".
Definition standard_model : js_string := lit "gemini-2.5-flash-preview-05-20".
Definition legacy_model : js_string := lit "gemini-2.0-flash-exp".

Definition modelName (aiModel : value) : js_string :=
  if is_string (lit "pro") aiModel then premium_model
  else if is_string (lit "smart") aiModel then standard_model
  else legacy_model.

Definition tools_for (aiModel useGrounding : value) : list tool :=
  if is_string (lit "internet") aiModel && truthy (Some useGrounding)
  then [GoogleSearch] else [].

(** [const { tools, ...configWithoutTools } = requestConfig] *)
Definition without_tools (cfg : request_config) : request_config :=
  {| contents := contents cfg; tools := None |}.

Definition grounding_unsupported (m : js_string) : bool :=
  includes (lit "Search Grounding is not supported") m ||
  includes (lit "google_search_retrieval is not supported") m.

(** [await model.generateContentStream(cfg)], the [n]-th such call of the
    request. *)
Definition generate (w : world) (n : nat) (cfg : request_config) : M upstream :=
  fun closed =>
    match provider w n cfg with
    | Resolves s => (Ok s, closed, [Generate cfg])
    | Rejects gone t => (Throw t, closed || gone, [Generate cfg])
    end.

Definition generateStreamWithFallback (w : world) (useGrounding : value)
    (requestConfig : request_config) : M upstream :=
  try_catch (generate w 0 requestConfig)
    (fun error =>
       if truthy (Some useGrounding) then
         match error with
         | TNullish => throw (TError msg_message_of_nullish)
         | TError m | TOther (Some m) =>
             if grounding_unsupported m
             then generate w 1 (without_tools requestConfig)
             else throw error
         | TOther None => throw error
         end
       else throw error).

(** The [for await] loop over [result.stream]. *)
Fixpoint relay (its : list stream_item) (fail : option thrown) : M unit :=
  match its with
  | [] =>
      match fail with
      | None => ret tt
      | Some t => throw t
      end
  | Cancel :: rest => client_cancels ;; relay rest fail
  | Chunk chunkText stamp :: rest =>
      match chunkText with
      | [] => relay rest fail
      | _ :: _ =>
          stop <- try_catch (enqueue (Token chunkText stamp) ;; ret false)
                            (fun _ => ret true) ;;
          if stop then ret tt else relay rest fail
      end
  end.

Definition user_turn (ps : list part) (tls : list tool) : request_config :=
  {| contents := [ {| role := lit "user"; parts := ps |} ]; tools := Some tls |}.

Definition stream_error_message (error : thrown) : js_string :=
  match error with
  | TError m => m
  | _ => lit "Streaming error occurred"
  end.

Section Runtime.

(** Node's [Buffer.from(s, 'base64')] and [buf.toString('base64')], and
    JavaScript's comparison [v > 0] on a value that is not known to be a
    number, are taken as they come. *)
Variable buffer_from_base64 : js_string -> list N.
Variable buffer_to_base64 : list N -> js_string.
Variable greater_than_zero : value -> bool.

Definition base64ToBuffer (base64 : js_string) : list N :=
  buffer_from_base64 (strip_data_uri base64).

Definition image_part (imageData : js_string) : part :=
  InlineData (buffer_to_base64 (base64ToBuffer imageData)) (lit "image/jpeg").

(** [base64ToBuffer(x)] followed by the construction of the part, for an
    [x] that need not be a string. *)
Definition image_part_of (x : value) : M part :=
  match x with
  | JStr s => ret (image_part s)
  | JNull => throw (TError msg_replace_of_null)
  | _ => throw (TError msg_replace_not_function)
  end.

Fixpoint map_image_parts (xs : list value) : M (list part) :=
  match xs with
  | [] => ret []
  | x :: rest =>
      p <- image_part_of x ;;
      ps <- map_image_parts rest ;;
      ret (p :: ps)
  end.

(** [images && images.length > 0] *)
Definition has_images (imgs : option value) : bool :=
  match imgs with
  | Some (JArr xs) => match xs with [] => false | _ :: _ => true end
  | Some (JStr s) => match s with [] => false | _ :: _ => true end
  | Some (JObj fields) =>
      match get_field (lit "length") fields with
      | Some n => greater_than_zero n
      | None => false
      end
  | _ => false
  end.

(** [images.map(...)] *)
Definition images_map (imgs : option value) : M (list part) :=
  match imgs with
  | Some (JArr xs) => map_image_parts xs
  | _ => throw (TError msg_map_not_function)
  end.

(** The three-way choice of [start] that assigns [result]: the [images]
    array first, the legacy [image] second, text only last. *)
Definition request_stream (w : world) (msg : js_string) (r : request)
    (tls : list tool) : M upstream :=
  let text_only :=
    generateStreamWithFallback w (useGrounding r)
      (user_turn [TextPart msg] tls) in
  if has_images (images r) then
    imageParts <- images_map (images r) ;;
    generateStreamWithFallback w (useGrounding r)
      (user_turn (TextPart msg :: imageParts) tls)
  else
    match image r with
    | Some img =>
        if truthy (Some img) then
          imagePart <- image_part_of img ;;
          generateStreamWithFallback w (useGrounding r)
            (user_turn [TextPart msg; imagePart] tls)
        else text_only
    | None => text_only
    end.

(** The body of [start(controller)]. *)
Definition start (w : world) (msg : js_string) (r : request)
    (tls : list tool) : M unit :=
  try_catch
    (res <- request_stream w msg r tls ;;
     relay (items res) (failure res) ;;
     try_catch (enqueue Done ;; close) (fun _ => ret tt))
    (fun error =>
       try_catch (enqueue (ErrorEvent (stream_error_message error)) ;; close)
                 (fun _ => ret tt)).

Definition json_error (status : N) (fields : list (js_string * js_string)) : response :=
  JsonResponse status fields.

Definition stream_headers : list (js_string * js_string) :=
  [ (lit "Content-Type", lit "text/event-stream");
    (lit "Cache-Control", lit "no-cache");
    (lit "Connection", lit "keep-alive") ].

Definition hint_for (statusCode : N) : js_string :=
  if N.eqb statusCode 401 then lit "Controleer je GEMINI_API_KEY in environment variables"
  else if N.eqb statusCode 429 then lit "Wacht even en probeer opnieuw"
  else if N.eqb statusCode 503 then lit "Controleer je internetverbinding"
  else lit "Probeer het opnieuw of neem contact op met support".

(** [statusCode] and [errorMessage] as the outer [catch] computes them. *)
Definition classify (error : thrown) : N * js_string :=
  match error with
  | TError m =>
      if includes (lit "API key") m
      then (401, lit "API key probleem: " ++ m)
      else if includes (lit "quota") m || includes (lit "limit") m
      then (429, lit "API limiet bereikt: " ++ m)
      else if includes (lit "network") m || includes (lit "fetch") m
      then (503, lit "Netwerk probleem: " ++ m)
      else (500, m)
  | _ => (500, lit "Unknown error")
  end.

Definition outer_catch (w : world) (error : thrown) : response :=
  let '(statusCode, errorMessage) := classify error in
  json_error statusCode
    [ (lit "error", lit "Er is een fout opgetreden bij het verwerken van je bericht");
      (lit "details", errorMessage);
      (lit "timestamp", error_time w);
      (lit "hint", hint_for statusCode) ].

Definition message_limit : N := 100000.

(** From the model selection to the streaming response. The stream's
    [start] runs when the stream is constructed; here it runs to its end
    before the response is returned, which does not change the order of
    its effects. *)
Definition validated (w : world) (msg : js_string) (r : request) : M response :=
  let name := modelName (aiModel r) in
  emit (GetModel name) ;;
  match model_init w name with
  | Some _ =>
      ret (json_error 500
             [ (lit "error", lit "Kan AI model niet initialiseren");
               (lit "hint", lit "Controleer of je API key geldig is");
               (lit "debug", lit "Model initialization failed for " ++ name) ])
  | None =>
      let tls := tools_for (aiModel r) (useGrounding r) in
      start w msg r tls ;;
      ret (StreamResponse stream_headers)
  end.

Definition with_request (w : world) (r : request) : M response :=
  if negb (truthy (message r)) then
    ret (json_error 400 [ (lit "error", lit "Bericht is vereist") ])
  else
    match message r with
    | Some (JStr msg) =>
        if N.ltb message_limit (N.of_nat (List.length msg)) then
          ret (json_error 400
                 [ (lit "error",
                    lit "Bericht moet een string zijn van maximaal 100.000 karakters") ])
        else validated w msg r
    | _ =>
        ret (json_error 400
               [ (lit "error",
                  lit "Bericht moet een string zijn van maximaal 100.000 karakters") ])
    end.

Definition with_key (w : world) : M response :=
  emit ParseBody ;;
  match body w with
  | None =>
      ret (json_error 400
             [ (lit "error", lit "Ongeldig request formaat");
               (lit "hint", lit "Request body moet geldige JSON zijn");
               (lit "debug", lit "JSON parsing failed") ])
  | Some b =>
      r <- (fun closed => (destructure b, closed, [])) ;;
      with_request w r
  end.

Definition missing_key_response : response :=
  json_error 500
    [ (lit "error", lit "API configuratie ontbreekt. Check Environment Variables.");
      (lit "hint", lit "Voeg GEMINI_API_KEY toe aan je environment variables");
      (lit "debug", lit "Environment variable GEMINI_API_KEY is not set") ].

Definition blank_key_response : response :=
  json_error 500
    [ (lit "error", lit "API key is leeg of ongeldig");
      (lit "hint", lit "Controleer of GEMINI_API_KEY correct is ingesteld");
      (lit "debug", lit "GEMINI_API_KEY exists but is empty or not a string") ].

Definition POST (w : world) : M response :=
  try_catch
    (match env_key w with
     | None => ret missing_key_response
     | Some key =>
         match key with
         | [] => ret missing_key_response
         | _ :: _ =>
             match trim key with
             | [] => ret blank_key_response
             | _ :: _ => with_key w
             end
         end
     end)
    (fun error => ret (outer_catch w error)).

(** One request served from start to end, the stream open at first. *)
Definition serve (w : world) : result response * bool * list effect :=
  POST w false.

End Runtime.

(** ** Reading a run of the handler *)

(** The provider calls of a run, in order. *)
Fixpoint calls (l : list effect) : list request_config :=
  match l with
  | [] => []
  | Generate cfg :: rest => cfg :: calls rest
  | _ :: rest => calls rest
  end.

(** The events the outbound stream accepted, in order. *)
Fixpoint delivered (l : list effect) : list event :=
  match l with
  | [] => []
  | Enqueue e true :: rest => e :: delivered rest
  | _ :: rest => delivered rest
  end.

(** Every [controller.enqueue] call of a run, accepted or not, in order. *)
Fixpoint attempts (l : list effect) : list event :=
  match l with
  | [] => []
  | Enqueue e _ :: rest => e :: attempts rest
  | _ :: rest => attempts rest
  end.

Definition is_token (e : event) : bool :=
  match e with
  | Token _ _ => true
  | _ => false
  end.

Definition is_terminating (e : event) : bool := negb (is_token e).

Definition status_of (r : response) : option N :=
  match r with
  | JsonResponse status _ => Some status
  | StreamResponse _ => None
  end.

Definition has_search (cfg : request_config) : bool :=
  match tools cfg with
  | Some (GoogleSearch :: _) => true
  | _ => false
  end.

(** The Token events a fully relayed chunk sequence produces: one per chunk
    with a non-empty text. *)
Fixpoint tokens_of (its : list stream_item) : list event :=
  match its with
  | [] => []
  | Chunk [] _ :: rest => tokens_of rest
  | Chunk text stamp :: rest => Token text stamp :: tokens_of rest
  | Cancel :: rest => tokens_of rest
  end.

Definition blank_key (k : option js_string) : Prop :=
  match k with
  | None => True
  | Some s => forallb is_space s = true
  end.

(** Helpers for stating what a run looks like. *)

(** The effects that end a run: the attempt to enqueue the closing event
    [e], and the [close] that follows when the stream took it. *)
Definition final_effects (e : event) (closed : bool) : list effect :=
  if closed then [Enqueue e false] else [Enqueue e true; Close true].

(** The effects of a run before its closing event: provider calls and
    accepted Token events. *)
Definition relayed (x : effect) : bool :=
  match x with
  | Generate _ => true
  | Enqueue (Token _ _) true => true
  | _ => false
  end.

Definition accepted_end (x : effect) : bool :=
  match x with
  | Enqueue e true => is_terminating e
  | _ => false
  end.

Definition refused_token (x : effect) : bool :=
  match x with
  | Enqueue e false => is_token e
  | _ => false
  end.

(** The [message] property of a caught value, when it is a string. *)
Definition error_message (t : thrown) : option js_string :=
  match t with
  | TError m => Some m
  | TOther m => m
  | TNullish => None
  end.

(** Whether the [catch] of [generateStreamWithFallback] calls the provider
    again for the caught value [t]. *)
Definition retries (useGrounding : value) (t : thrown) : bool :=
  truthy (Some useGrounding) &&
  match error_message t with
  | Some m => grounding_unsupported m
  | None => false
  end.

(** What leaves [generateStreamWithFallback] when it does not retry:
    the caught value itself, unless reading its [message] threw. *)
Definition rethrown (useGrounding : value) (t : thrown) : thrown :=
  match t with
  | TNullish =>
      if truthy (Some useGrounding) then TError msg_message_of_nullish else t
  | _ => t
  end.

(** The [message] field fails validation: missing, falsy, not a string,
    or longer than the bound. *)
Definition message_invalid (m : option value) : Prop :=
  match m with
  | Some (JStr s) => s = [] \/ (100000 < N.of_nat (List.length s))%N
  | _ => True
  end.

(** The request was let through to the stream producer: usable
    credential, body parsed and destructured into [r], message a
    non-empty string [msg] within the bound, model handle constructed. *)
Definition accepted (w : world) (r : request) (msg : js_string) : Prop :=
  ~ blank_key (env_key w) /\
  (exists b, body w = Some b /\ destructure b = Ok r) /\
  message r = Some (JStr msg) /\
  msg <> [] /\
  (N.of_nat (List.length msg) <= 100000)%N /\
  model_init w (modelName (aiModel r)) = None.

(** The event that closes a run in which the provider's sequence [s] was
    read to its end. *)
Definition closing_event (s : upstream) : event :=
  match failure s with
  | None => Done
  | Some t => ErrorEvent (stream_error_message t)
  end.

(** The strings among the elements of an array. *)
Fixpoint strings_of (xs : list value) : list js_string :=
  match xs with
  | [] => []
  | JStr s :: rest => s :: strings_of rest
  | _ :: rest => strings_of rest
  end.

Definition is_close (x : effect) : bool :=
  match x with
  | Close _ => true
  | _ => false
  end.

Definition is_js_string (v : value) : bool :=
  match v with
  | JStr _ => true
  | _ => false
  end.

(** The parts a request yields when building them does not throw: the
    text and the images of a non-empty array of strings; failing such an
    array, the text and the legacy image when it is a non-empty string;
    the text alone when there is no truthy legacy image. [None] when an
    element of the array, or a truthy legacy image, is not a string, and
    when [images] has a positive length without being an array. *)
Definition built_parts (buffer_from_base64 : js_string -> list N)
    (buffer_to_base64 : list N -> js_string) (greater_than_zero : value -> bool)
    (msg : js_string) (r : request) : option (list part) :=
  if has_images greater_than_zero (images r) then
    match images r with
    | Some (JArr xs) =>
        if forallb is_js_string xs
        then Some (TextPart msg
                     :: map (image_part buffer_from_base64 buffer_to_base64) (strings_of xs))
        else None
    | _ => None
    end
  else
    match image r with
    | Some (JStr (c :: s)) =>
        Some [TextPart msg; image_part buffer_from_base64 buffer_to_base64 (c :: s)]
    | Some img => if truthy (Some img) then None else Some [TextPart msg]
    | None => Some [TextPart msg]
    end.

(** ** A concrete runtime and concrete requests, for the examples *)

Module Example.

(** Base64 as Node's [Buffer] reads and writes it: both alphabets are
    read, characters outside them are skipped, reading stops at the first
    padding sign; writing uses the standard alphabet with padding. *)
Definition sextet (c : code_unit) : option N :=
  if between 65 90 c then Some (c - 65)
  else if between 97 122 c then Some (c - 71)
  else if between 48 57 c then Some (c + 4)
  else if N.eqb c 43 || N.eqb c 45 then Some 62
  else if N.eqb c 47 || N.eqb c 95 then Some 63
  else None.

Fixpoint sextets (s : js_string) : list N :=
  match s with
  | [] => []
  | c :: rest =>
      if N.eqb c 61 then []
      else match sextet c with
           | Some n => n :: sextets rest
           | None => sextets rest
           end
  end.

Fixpoint bytes_of_sextets (l : list N) : list N :=
  match l with
  | a :: b :: c :: d :: rest =>
      (a * 4 + b / 16) :: ((b mod 16) * 16 + c / 4) :: ((c mod 4) * 64 + d)
        :: bytes_of_sextets rest
  | [a; b; c] => [a * 4 + b / 16; (b mod 16) * 16 + c / 4]
  | [a; b] => [a * 4 + b / 16]
  | _ => []
  end.

Definition from_base64 (s : js_string) : list N := bytes_of_sextets (sextets s).

Definition digit (n : N) : code_unit :=
  if N.ltb n 26 then n + 65
  else if N.ltb n 52 then n + 71
  else if N.ltb n 62 then n - 4
  else if N.eqb n 62 then 43 else 47.

Fixpoint to_base64 (l : list N) : js_string :=
  match l with
  | a :: b :: c :: rest =>
      digit (a / 4) :: digit ((a mod 4) * 16 + b / 16)
        :: digit ((b mod 16) * 4 + c / 64) :: digit (c mod 64) :: to_base64 rest
  | [a; b] => [digit (a / 4); digit ((a mod 4) * 16 + b / 16); digit ((b mod 16) * 4); 61]
  | [a] => [digit (a / 4); digit ((a mod 4) * 16); 61; 61]
  | [] => []
  end.

(** [v > 0] for [null], booleans and numbers. The examples never reach
    another case. *)
Definition positive (v : value) : bool :=
  match v with
  | JBool b => b
  | JNum z => Z.ltb 0 z
  | _ => false
  end.

Definition run (w : world) : result response * bool * list effect :=
  serve from_base64 to_base64 positive w.

Definition key : js_string := lit "AIzaSy-example".
Definition clock : js_string := lit "2025-06-01T12:00:00.000Z".
Definition unsupported : js_string :=
  lit "[400 Bad Request] Search Grounding is not supported.".

Definition text_stream (texts : list string) : upstream :=
  {| items := map (fun t => Chunk (lit t) clock) texts; failure := None |}.

Definition body_of (fields : list (string * value)) : option value :=
  Some (JObj (map (fun kv => (lit (fst kv), snd kv)) fields)).

Definition hello : value := JStr (lit "hello").

(** A world around a given body and provider, everything else in order. *)
Definition world_with (b : option value)
    (p : nat -> request_config -> call_result) : world :=
  {| env_key := Some key;
     body := b;
     model_init := fun _ => None;
     provider := p;
     error_time := clock |}.

Definition answers (texts : list string) (n : nat) (cfg : request_config) : call_result :=
  Resolves (text_stream texts).

(** The first call is refused for want of search grounding; a second call
    would be answered. *)
Definition refuses_grounding (n : nat) (cfg : request_config) : call_result :=
  match n with
  | O => Rejects false (TError unsupported)
  | S _ => Resolves (text_stream ["ok"%string])
  end.

(** The client leaves after the first chunk. *)
Definition client_leaves (n : nat) (cfg : request_config) : call_result :=
  Resolves {| items := [Chunk (lit "a") clock; Cancel;
                        Chunk (lit "b") clock; Chunk (lit "c") clock];
              failure := None |}.

Definition request_of (fields : list (string * value)) : request :=
  fields_of (fun k => get_field k (map (fun kv => (lit (fst kv), snd kv)) fields)).

Definition start_of (w : world) (r : request) : result unit * bool * list effect :=
  start from_base64 to_base64 positive w (lit "hello") r
    (tools_for (aiModel r) (useGrounding r)) false.

(** The bodies of the example requests. *)
Definition plain : list (string * value) := [("message"%string, hello)].

Definition turbo : list (string * value) :=
  [("message"%string, hello); ("aiModel"%string, JStr (lit "turbo"))].

Definition internet_grounded : list (string * value) :=
  [("message"%string, hello); ("aiModel"%string, JStr (lit "internet"));
   ("useGrounding"%string, JBool true)].

Definition internet_ungrounded : list (string * value) :=
  [("message"%string, hello); ("aiModel"%string, JStr (lit "internet"));
   ("useGrounding"%string, JBool false)].

Definition two_images : list (string * value) :=
  [("message"%string, hello);
   ("images"%string, JArr [JStr (lit "data:image/png;base64,aGk="); JStr (lit "QUJD")]);
   ("image"%string, JStr (lit "eHl6"))].

(** The credential is set, but to white space. *)
Definition blank_credential : world :=
  {| env_key := Some (lit "   ");
     body := body_of plain;
     model_init := fun _ => None;
     provider := answers ["unused"%string];
     error_time := clock |}.

(** More example requests and providers. *)

(** Two chunks, then the provider's sequence fails. *)
Definition breaks_off (n : nat) (cfg : request_config) : call_result :=
  Resolves {| items := [Chunk (lit "a") clock; Chunk (lit "b") clock];
              failure := Some (TError (lit "upstream reset")) |}.

Definition out_of_quota (n : nat) (cfg : request_config) : call_result :=
  Rejects false (TError (lit "quota exceeded")).

Definition number_among_images : list (string * value) :=
  [("message"%string, hello);
   ("images"%string, JArr [JStr (lit "QUJD"); JNum 7])].

Definition numeric_image : list (string * value) :=
  [("message"%string, hello); ("image"%string, JNum 5)].

Definition no_message : list (string * value) :=
  [("aiModel"%string, JStr (lit "pro"))].

Definition too_long : list (string * value) :=
  [("message"%string, JStr (repeat 97 (N.to_nat 100001)))].

(** The first call is refused for want of search grounding, the retry
    fails for another reason. *)
Definition refuses_twice (n : nat) (cfg : request_config) : call_result :=
  match n with
  | O => Rejects false (TError unsupported)
  | S _ => Rejects false (TError (lit "internal error"))
  end.

(** The model handle cannot be built. *)
Definition no_model : world :=
  {| env_key := Some key;
     body := body_of plain;
     model_init := fun _ => Some (TError (lit "unknown model"));
     provider := answers ["unused"%string];
     error_time := clock |}.

End Example.

(** ** Facts about strings *)

Lemma eqb_eq (a b : js_string) : JsString.eqb a b = true <-> a = b.
Proof.
  revert b; induction a as [|x a IH]; intros [|y b]; simpl;
    try (split; [discriminate | congruence]); [tauto|].
  rewrite andb_true_iff, N.eqb_eq, IH. split.
  - intros [-> ->]; reflexivity.
  - intros H; injection H; auto.
Qed.

Lemma eqb_refl (a : js_string) : JsString.eqb a a = true.
Proof. apply eqb_eq; reflexivity. Qed.

Lemma starts_with_spec (p s : js_string) :
  starts_with p s = true <-> exists post, s = p ++ post.
Proof.
  revert s; induction p as [|x p IH]; intros s; simpl.
  - split; [intros _; exists s; reflexivity | reflexivity].
  - destruct s as [|y s].
    + split; [discriminate | intros [post H]; discriminate].
    + rewrite andb_true_iff, N.eqb_eq, IH. split.
      * intros [-> [post ->]]. exists post; reflexivity.
      * intros [post H]. injection H as -> ->. split; [reflexivity | eauto].
Qed.

Lemma includes_spec (needle s : js_string) :
  includes needle s = true <-> contains needle s.
Proof.
  unfold contains. induction s as [|c s IH].
  - simpl. rewrite orb_false_r, starts_with_spec. split.
    + intros [post H]. exists [], post. exact H.
    + intros [pre [post H]]. destruct pre; simpl in H.
      * eauto.
      * discriminate.
  - cbn [includes]. rewrite orb_true_iff, starts_with_spec, IH. split.
    + intros [[post H] | [pre [post H]]].
      * exists [], post. exact H.
      * exists (c :: pre), post. simpl. rewrite H. reflexivity.
    + intros [pre [post H]]. destruct pre as [|c' pre]; simpl in H.
      * left. eauto.
      * right. injection H as _ H. eauto.
Qed.

Lemma includes_false (needle s : js_string) :
  includes needle s = false <-> ~ contains needle s.
Proof.
  rewrite <- includes_spec. destruct (includes needle s); split; congruence.
Qed.

Lemma strip_prefix_app (p s : js_string) : strip_prefix p (p ++ s) = Some s.
Proof.
  induction p as [|x p IH]; simpl; [reflexivity|].
  rewrite N.eqb_refl. exact IH.
Qed.

Lemma strip_prefix_Some (p s rest : js_string) :
  strip_prefix p s = Some rest -> s = p ++ rest.
Proof.
  revert s; induction p as [|x p IH]; intros [|y s]; simpl; try congruence.
  destruct (N.eqb x y) eqn:E; [|discriminate].
  apply N.eqb_eq in E. subst y. intros H. f_equal. auto.
Qed.

Lemma span_spec (f : code_unit -> bool) (s : js_string) :
  s = fst (span f s) ++ snd (span f s) /\
  forallb f (fst (span f s)) = true.
Proof.
  induction s as [|c s [IH1 IH2]]; simpl; [auto|].
  destruct (f c) eqn:E; simpl; [|auto].
  destruct (span f s) as [a b]; simpl in *. rewrite E, IH2. split; [congruence | reflexivity].
Qed.

Lemma span_run (f : code_unit -> bool) (run rest : js_string) :
  forallb f run = true ->
  match rest with [] => True | c :: _ => f c = false end ->
  span f (run ++ rest) = (run, rest).
Proof.
  intros Hrun Hrest. induction run as [|c run IH]; simpl in *.
  - destruct rest as [|c rest]; [reflexivity|]. simpl. rewrite Hrest. reflexivity.
  - apply andb_true_iff in Hrun as [-> Hrun]. rewrite (IH Hrun). reflexivity.
Qed.

Lemma drop_while_nil (f : code_unit -> bool) (s : js_string) :
  drop_while f s = [] <-> forallb f s = true.
Proof.
  induction s as [|c s IH]; simpl; [tauto|].
  destruct (f c); simpl; [exact IH | split; discriminate].
Qed.

Lemma drop_while_last (f : code_unit -> bool) (s : js_string) (c : code_unit) :
  f c = false -> drop_while f (s ++ [c]) <> [].
Proof.
  intros Hc. induction s as [|x s IH]; simpl.
  - rewrite Hc. discriminate.
  - destruct (f x); [exact IH | discriminate].
Qed.

Lemma drop_while_head (f : code_unit -> bool) (s : js_string) :
  match drop_while f s with [] => True | c :: _ => f c = false end.
Proof.
  induction s as [|x s IH]; simpl; [exact I|].
  destruct (f x) eqn:E; [exact IH | exact E].
Qed.

(** [key.trim().length === 0] exactly when [key] is white space only. *)
Lemma trim_nil (s : js_string) : trim s = [] <-> forallb is_space s = true.
Proof.
  unfold trim. rewrite <- drop_while_nil. split.
  - intros H. apply (f_equal (@rev _)) in H. rewrite rev_involutive in H.
    simpl in H. pose proof (drop_while_head is_space s) as Hh.
    destruct (drop_while is_space s) as [|c rest]; [reflexivity|].
    exfalso. simpl in H. revert H. apply drop_while_last. exact Hh.
  - intros ->. reflexivity.
Qed.

(** ** Facts about the handler monad and the relay loop *)

Lemma delivered_app (a b : list effect) : delivered (a ++ b) = delivered a ++ delivered b.
Proof.
  induction a as [|x a IH]; simpl; [reflexivity|].
  destruct x as [| | |e [|]|]; simpl; rewrite IH; reflexivity.
Qed.

Lemma calls_app (a b : list effect) : calls (a ++ b) = calls a ++ calls b.
Proof.
  induction a as [|x a IH]; simpl; [reflexivity|].
  destruct x; simpl; rewrite IH; reflexivity.
Qed.

Lemma attempts_app (a b : list effect) : attempts (a ++ b) = attempts a ++ attempts b.
Proof.
  induction a as [|x a IH]; simpl; [reflexivity|].
  destruct x; simpl; rewrite IH; reflexivity.
Qed.

(** [try { controller.enqueue(e); controller.close() } catch { }] never
    throws and leaves the stream closed. *)
Lemma send_final (e : event) (closed : bool) :
  try_catch (enqueue e ;; close) (fun _ => ret tt) closed
  = (Ok tt, true, final_effects e closed).
Proof. destruct closed; reflexivity. Qed.

Lemma relay_cancel (rest : list stream_item) (fail : option thrown) (closed : bool) :
  relay (Cancel :: rest) fail closed = relay rest fail true.
Proof.
  cbn [relay]. unfold bind, client_cancels.
  destruct (relay rest fail true) as [[v c] l]. reflexivity.
Qed.

Lemma relay_chunk_closed (c : code_unit) (text stamp : js_string)
    (rest : list stream_item) (fail : option thrown) :
  relay (Chunk (c :: text) stamp :: rest) fail true
  = (Ok tt, true, [Enqueue (Token (c :: text) stamp) false]).
Proof. reflexivity. Qed.

Lemma relay_chunk_open (c : code_unit) (text stamp : js_string)
    (rest : list stream_item) (fail : option thrown) :
  relay (Chunk (c :: text) stamp :: rest) fail false
  = let '(v, closed, l) := relay rest fail false in
    (v, closed, Enqueue (Token (c :: text) stamp) true :: l).
Proof.
  cbn [relay]. unfold bind at 1. cbn.
  destruct (relay rest fail false) as [[v closed] l]. reflexivity.
Qed.

(** What the loop leaves in the trace: accepted Token events, then at
    most one refused Token event, at which the loop stops without
    throwing. *)
Lemma relay_trace (its : list stream_item) (fail : option thrown) (closed : bool) :
  exists pre,
    forallb relayed pre = true /\
    (effects_of (relay its fail closed) = pre \/
     exists text stamp,
       relay its fail closed = (Ok tt, true, pre ++ [Enqueue (Token text stamp) false])).
Proof.
  revert closed. induction its as [|[text stamp|] rest IH]; intros closed.
  - exists []. split; [reflexivity|]. left. simpl. destruct fail; reflexivity.
  - destruct text as [|c text].
    + exact (IH closed).
    + destruct closed.
      * exists []. split; [reflexivity|]. right. exists (c :: text), stamp.
        apply relay_chunk_closed.
      * rewrite relay_chunk_open. destruct (IH false) as [pre [Hpre H]].
        exists (Enqueue (Token (c :: text) stamp) true :: pre). split; [exact Hpre|].
        destruct H as [H | [t [n H]]].
        -- left. destruct (relay rest fail false) as [[v cl] l].
           unfold effects_of in *. simpl in *. subst l. reflexivity.
        -- right. exists t, n. rewrite H. reflexivity.
  - rewrite relay_cancel. exact (IH true).
Qed.

(** With the client present throughout, every non-empty chunk is
    relayed and the loop ends the way the provider's sequence ends. *)
Lemma relay_open (its : list stream_item) (fail : option thrown) :
  ~ In Cancel its ->
  relay its fail false
  = (match fail with None => Ok tt | Some t => Throw t end, false,
     map (fun e => Enqueue e true) (tokens_of its)).
Proof.
  induction its as [|[text stamp|] rest IH]; intros Hc.
  - simpl. destruct fail; reflexivity.
  - assert (Hrest : ~ In Cancel rest) by (intros H; apply Hc; right; exact H).
    destruct text as [|c text].
    + simpl. apply IH. exact Hrest.
    + rewrite relay_chunk_open, (IH Hrest). reflexivity.
  - exfalso. apply Hc. left. reflexivity.
Qed.

(** The loop throws only what the provider's sequence fails with. *)
Lemma relay_throws (its : list stream_item) (fail : option thrown) (closed : bool)
    (t : thrown) :
  value_of (relay its fail closed) = Throw t -> fail = Some t.
Proof.
  revert closed. induction its as [|[text stamp|] rest IH]; intros closed.
  - destruct fail; cbn; [intros H; injection H as ->; reflexivity | discriminate].
  - destruct text as [|c text]; [exact (IH closed)|].
    destruct closed.
    + rewrite relay_chunk_closed. discriminate.
    + rewrite relay_chunk_open. specialize (IH false).
      destruct (relay rest fail false) as [[v cl] l]. exact IH.
  - rewrite relay_cancel. exact (IH true).
Qed.

(** ** Facts about the provider call and its fallback *)

Lemma bind_pure {A B} (m : M A) (f : A -> M B) (a : A) (closed : bool) :
  m closed = (Ok a, closed, []) -> bind m f closed = f a closed.
Proof.
  intros H. unfold bind. rewrite H. destruct (f a closed) as [[v c] l]. reflexivity.
Qed.

Lemma bind_throw {A B} (m : M A) (f : A -> M B) (t : thrown) (closed c : bool)
    (l : list effect) :
  m closed = (Throw t, c, l) -> bind m f closed = (Throw t, c, l).
Proof. intros H. unfold bind. rewrite H. reflexivity. Qed.

Lemma bind_silent {A B} (m : M A) (f : A -> M B) (closed : bool) :
  closed_after (m closed) = closed /\ effects_of (m closed) = [] ->
  (forall a, closed_after (f a closed) = closed /\ effects_of (f a closed) = []) ->
  closed_after (bind m f closed) = closed /\ effects_of (bind m f closed) = [].
Proof.
  intros [Hc He] Hf. unfold bind.
  destruct (m closed) as [[[a|t] c] l]; unfold closed_after, effects_of in Hc, He;
    simpl in Hc, He; subst c l.
  - specialize (Hf a). destruct (f a closed) as [[v c] l]. exact Hf.
  - split; reflexivity.
Qed.

Lemma fallback_resolves (w : world) (ug : value) (cfg : request_config)
    (closed : bool) (s : upstream) :
  provider w 0%nat cfg = Resolves s ->
  generateStreamWithFallback w ug cfg closed = (Ok s, closed, [Generate cfg]).
Proof.
  intros H. unfold generateStreamWithFallback, try_catch, generate. rewrite H.
  reflexivity.
Qed.

Lemma fallback_retry (w : world) (ug : value) (cfg : request_config)
    (closed gone : bool) (t : thrown) :
  provider w 0%nat cfg = Rejects gone t ->
  retries ug t = true ->
  generateStreamWithFallback w ug cfg closed
  = match provider w 1%nat (without_tools cfg) with
    | Resolves s =>
        (Ok s, closed || gone, [Generate cfg; Generate (without_tools cfg)])
    | Rejects gone' t' =>
        (Throw t', (closed || gone) || gone',
         [Generate cfg; Generate (without_tools cfg)])
    end.
Proof.
  intros H Hr. unfold retries in Hr. apply andb_true_iff in Hr as [Hug Hm].
  unfold generateStreamWithFallback, try_catch. unfold generate at 1. rewrite H, Hug.
  destruct t as [m|[m|]|]; simpl in Hm; try discriminate; rewrite Hm;
    unfold generate; destruct (provider w 1%nat (without_tools cfg)); reflexivity.
Qed.

Lemma fallback_no_retry (w : world) (ug : value) (cfg : request_config)
    (closed gone : bool) (t : thrown) :
  provider w 0%nat cfg = Rejects gone t ->
  retries ug t = false ->
  generateStreamWithFallback w ug cfg closed
  = (Throw (rethrown ug t), closed || gone, [Generate cfg]).
Proof.
  intros H Hr. unfold retries in Hr. unfold rethrown.
  unfold generateStreamWithFallback, try_catch, generate. rewrite H.
  destruct (truthy (Some ug)); simpl in Hr.
  - destruct t as [m|[m|]|]; simpl in Hr; try rewrite Hr; reflexivity.
  - destruct t as [m|[m|]|]; reflexivity.
Qed.

(** One call, or the call and its retry without the tool list; nothing
    else is done. *)
Lemma fallback_calls (w : world) (ug : value) (cfg : request_config) (closed : bool) :
  effects_of (generateStreamWithFallback w ug cfg closed) = [Generate cfg] \/
  effects_of (generateStreamWithFallback w ug cfg closed)
  = [Generate cfg; Generate (without_tools cfg)].
Proof.
  destruct (provider w 0%nat cfg) as [s|gone t] eqn:H.
  - left. rewrite (fallback_resolves _ _ _ _ _ H). reflexivity.
  - destruct (retries ug t) eqn:Hr.
    + right. rewrite (fallback_retry _ _ _ _ _ _ H Hr).
      destruct (provider w 1%nat (without_tools cfg)); reflexivity.
    + left. rewrite (fallback_no_retry _ _ _ _ _ _ H Hr). reflexivity.
Qed.

(** ** Facts about traces *)

Lemma relayed_not_end (x : effect) : relayed x = true -> accepted_end x = false.
Proof. destruct x as [| | |[] []|]; cbv; congruence. Qed.

Lemma relayed_not_refused (x : effect) : relayed x = true -> refused_token x = false.
Proof. destruct x as [| | |[] []|]; cbv; congruence. Qed.

(** An element with property [P] of a list whose front part has none
    lies in the back part. *)
Lemma split_behind {A} (P : A -> bool) (pre post l1 l2 : list A) (y : A) :
  forallb (fun x => negb (P x)) pre = true ->
  P y = true ->
  pre ++ post = l1 ++ y :: l2 ->
  exists mid, l1 = pre ++ mid /\ post = mid ++ y :: l2.
Proof.
  intros Hpre Hy. revert l1. induction pre as [|x pre IH]; intros l1 H.
  - exists l1. split; [reflexivity | exact H].
  - simpl in Hpre. apply andb_true_iff in Hpre as [Hx Hpre].
    destruct l1 as [|z l1]; simpl in H; injection H as Hz H.
    + subst x. rewrite Hy in Hx. discriminate.
    + destruct (IH Hpre l1 H) as [mid [-> ->]]. subst z.
      exists mid. split; reflexivity.
Qed.

Lemma relayed_pre_no_end (pre : list effect) :
  forallb relayed pre = true -> forallb (fun x => negb (accepted_end x)) pre = true.
Proof.
  induction pre as [|x pre IH]; simpl; [reflexivity|].
  intros H. apply andb_true_iff in H as [Hx H].
  rewrite (relayed_not_end _ Hx), (IH H). reflexivity.
Qed.

Lemma relayed_pre_no_refusal (pre : list effect) :
  forallb relayed pre = true -> forallb (fun x => negb (refused_token x)) pre = true.
Proof.
  induction pre as [|x pre IH]; simpl; [reflexivity|].
  intros H. apply andb_true_iff in H as [Hx H].
  rewrite (relayed_not_refused _ Hx), (IH H). reflexivity.
Qed.

(** The events delivered by a relayed prefix are Token events, and each
    of its writes was accepted. *)
Lemma relayed_delivered (pre : list effect) :
  forallb relayed pre = true ->
  forallb is_token (delivered pre) = true /\ attempts pre = delivered pre.
Proof.
  induction pre as [|x pre IH]; simpl; [split; reflexivity|].
  intros H. apply andb_true_iff in H as [Hx H]. destruct (IH H) as [H1 H2].
  destruct x as [| | |[] []|]; simpl in *; try discriminate; rewrite ?H1, ?H2;
    split; reflexivity.
Qed.

Lemma delivered_accepted (es : list event) :
  delivered (map (fun e => Enqueue e true) es) = es.
Proof. induction es as [|e es IH]; simpl; [reflexivity | rewrite IH; reflexivity]. Qed.

Lemma forallb_app_true {A} (f : A -> bool) (a b : list A) :
  forallb f a = true -> forallb f b = true -> forallb f (a ++ b) = true.
Proof. intros Ha Hb. rewrite forallb_app, Ha, Hb. reflexivity. Qed.

Section Handler_facts.

Variable buffer_from_base64 : js_string -> list N.
Variable buffer_to_base64 : list N -> js_string.
Variable greater_than_zero : value -> bool.

Let image_part' := image_part buffer_from_base64 buffer_to_base64.
Let request_stream' := request_stream buffer_from_base64 buffer_to_base64 greater_than_zero.
Let start' := start buffer_from_base64 buffer_to_base64 greater_than_zero.
Let serve' := serve buffer_from_base64 buffer_to_base64 greater_than_zero.

Lemma map_image_parts_strings (strs : list js_string) (closed : bool) :
  map_image_parts buffer_from_base64 buffer_to_base64 (map JStr strs) closed
  = (Ok (map image_part' strs), closed, []).
Proof.
  induction strs as [|s strs IH]; [reflexivity|].
  cbn [map map_image_parts image_part_of].
  rewrite (bind_pure _ _ (image_part' s)) by reflexivity.
  rewrite (bind_pure _ _ (map image_part' strs)) by exact IH.
  reflexivity.
Qed.

(** Building the parts performs no effect and leaves the stream alone. *)
Lemma map_image_parts_silent (xs : list value) (closed : bool) :
  closed_after (map_image_parts buffer_from_base64 buffer_to_base64 xs closed) = closed /\
  effects_of (map_image_parts buffer_from_base64 buffer_to_base64 xs closed) = [].
Proof.
  induction xs as [|x xs IH]; [split; reflexivity|].
  cbn [map_image_parts]. apply bind_silent.
  - destruct x; split; reflexivity.
  - intros p. apply bind_silent; [exact IH|]. intros ps. split; reflexivity.
Qed.

Lemma image_part_of_silent (x : value) (closed : bool) :
  closed_after (image_part_of buffer_from_base64 buffer_to_base64 x closed) = closed /\
  effects_of (image_part_of buffer_from_base64 buffer_to_base64 x closed) = [].
Proof. destruct x; split; reflexivity. Qed.

(** The provider calls of the three-way choice: none (the parts could not
    be built), or one request, or that request and the same one without
    its tool list. No other effect is performed. *)
Lemma request_stream_trace (w : world) (msg : js_string) (r : request)
    (tls : list tool) (closed : bool) :
  effects_of (request_stream' w msg r tls closed) = [] \/
  exists ps,
    effects_of (request_stream' w msg r tls closed) = [Generate (user_turn ps tls)] \/
    effects_of (request_stream' w msg r tls closed)
    = [Generate (user_turn ps tls); Generate (without_tools (user_turn ps tls))].
Proof.
  unfold request_stream', request_stream.
  assert (Hbind : forall (m : M (list part)) (f : list part -> list part),
    closed_after (m closed) = closed -> effects_of (m closed) = [] ->
    effects_of (bind m (fun ps => generateStreamWithFallback w (useGrounding r)
                                    (user_turn (f ps) tls)) closed) = [] \/
    exists ps,
      effects_of (bind m (fun ps => generateStreamWithFallback w (useGrounding r)
                                      (user_turn (f ps) tls)) closed)
      = [Generate (user_turn ps tls)] \/
      effects_of (bind m (fun ps => generateStreamWithFallback w (useGrounding r)
                                      (user_turn (f ps) tls)) closed)
      = [Generate (user_turn ps tls); Generate (without_tools (user_turn ps tls))]).
  { intros m f Hc He. unfold bind.
    destruct (m closed) as [[[ps|t] c] l]; unfold closed_after, effects_of in Hc, He;
      simpl in Hc, He; subst c l.
    - right. exists (f ps).
      pose proof (fallback_calls w (useGrounding r) (user_turn (f ps) tls) closed) as H.
      destruct (generateStreamWithFallback w (useGrounding r) (user_turn (f ps) tls) closed)
        as [[v c] l]. exact H.
    - left. reflexivity. }
  assert (Htext : forall ps,
    effects_of (generateStreamWithFallback w (useGrounding r) (user_turn ps tls) closed) = [] \/
    exists ps',
      effects_of (generateStreamWithFallback w (useGrounding r) (user_turn ps tls) closed)
      = [Generate (user_turn ps' tls)] \/
      effects_of (generateStreamWithFallback w (useGrounding r) (user_turn ps tls) closed)
      = [Generate (user_turn ps' tls); Generate (without_tools (user_turn ps' tls))]).
  { intros ps. right. exists ps. apply fallback_calls. }
  destruct (has_images greater_than_zero (images r)).
  - apply (Hbind _ (fun ps => TextPart msg :: ps)).
    + destruct (images r) as [[]|]; try reflexivity. apply map_image_parts_silent.
    + destruct (images r) as [[]|]; try reflexivity. apply map_image_parts_silent.
  - destruct (image r) as [img|]; [|apply Htext].
    destruct (truthy (Some img)); [|apply Htext].
    pose proof (image_part_of_silent img closed) as [H1 H2].
    unfold bind.
    destruct (image_part_of buffer_from_base64 buffer_to_base64 img closed)
      as [[[p|t] c] l]; unfold closed_after, effects_of in H1, H2; simpl in H1, H2; subst c l.
    + right. exists [TextPart msg; p].
      pose proof (fallback_calls w (useGrounding r) (user_turn [TextPart msg; p] tls) closed) as H.
      destruct (generateStreamWithFallback w (useGrounding r)
                  (user_turn [TextPart msg; p] tls) closed) as [[v c] l]. exact H.
    + left. reflexivity.
Qed.

(** [start] unfolded: the provider's stream is requested, relayed, and
    the run ends with the attempt to enqueue the closing event. *)
Lemma start_eq (w : world) (msg : js_string) (r : request) (tls : list tool)
    (closed : bool) :
  start' w msg r tls closed
  = match request_stream' w msg r tls closed with
    | (Ok res, c1, l1) =>
        match relay (items res) (failure res) c1 with
        | (Ok _, c2, l2) => (Ok tt, true, l1 ++ l2 ++ final_effects Done c2)
        | (Throw t, c2, l2) =>
            (Ok tt, true,
             (l1 ++ l2) ++ final_effects (ErrorEvent (stream_error_message t)) c2)
        end
    | (Throw t, c1, l1) =>
        (Ok tt, true, l1 ++ final_effects (ErrorEvent (stream_error_message t)) c1)
    end.
Proof.
  unfold start', start, request_stream'. unfold try_catch at 1. unfold bind at 1.
  destruct (request_stream buffer_from_base64 buffer_to_base64 greater_than_zero
              w msg r tls closed) as [[[res|t] c1] l1].
  - unfold bind at 1.
    destruct (relay (items res) (failure res) c1) as [[[u|t] c2] l2].
    + rewrite send_final. reflexivity.
    + rewrite send_final. reflexivity.
  - rewrite send_final. reflexivity.
Qed.

(** The producer never throws, and leaves the stream closed. *)
Lemma start_returns (w : world) (msg : js_string) (r : request) (tls : list tool)
    (closed : bool) :
  value_of (start' w msg r tls closed) = Ok tt /\
  closed_after (start' w msg r tls closed) = true.
Proof.
  rewrite start_eq.
  destruct (request_stream' w msg r tls closed) as [[[res|t] c1] l1];
    [destruct (relay (items res) (failure res) c1) as [[[u|t] c2] l2]|];
    split; reflexivity.
Qed.

Lemma request_stream_relayed (w : world) (msg : js_string) (r : request)
    (tls : list tool) (closed : bool) :
  forallb relayed (effects_of (request_stream' w msg r tls closed)) = true.
Proof.
  destruct (request_stream_trace w msg r tls closed) as [H | [ps [H | H]]];
    fold request_stream' in H; rewrite H; reflexivity.
Qed.

(** The grammar of a producer run: provider calls and accepted Token
    events, then either the closing event (Done or Error), accepted and
    followed by [close] or refused, or a refused Token event followed by
    the refused Done event. *)
Lemma start_trace (w : world) (msg : js_string) (r : request) (tls : list tool)
    (closed : bool) :
  exists pre,
    forallb relayed pre = true /\
    ((exists e c, is_terminating e = true /\
        effects_of (start' w msg r tls closed) = pre ++ final_effects e c) \/
     (exists text stamp,
        effects_of (start' w msg r tls closed)
        = pre ++ [Enqueue (Token text stamp) false; Enqueue Done false])).
Proof.
  rewrite start_eq. pose proof (request_stream_relayed w msg r tls closed) as Hl1.
  destruct (request_stream' w msg r tls closed) as [[[res|t] c1] l1];
    unfold effects_of in Hl1; simpl in Hl1.
  - destruct (relay_trace (items res) (failure res) c1) as [pre [Hpre [H | [text [stamp H]]]]].
    + destruct (relay (items res) (failure res) c1) as [[[u|t] c2] l2];
        unfold effects_of in H; simpl in H; subst l2;
        exists (l1 ++ pre); (split; [apply forallb_app_true; assumption|]); left.
      * exists Done, c2. split; [reflexivity|]. unfold effects_of; simpl.
        rewrite app_assoc. reflexivity.
      * exists (ErrorEvent (stream_error_message t)), c2. split; reflexivity.
    + rewrite H. exists (l1 ++ pre). split; [apply forallb_app_true; assumption|].
      right. exists text, stamp. unfold effects_of; simpl.
      rewrite <- !app_assoc. reflexivity.
  - exists l1. split; [exact Hl1|]. left.
    exists (ErrorEvent (stream_error_message t)), c1. split; reflexivity.
Qed.

(** ** Facts about the request path *)

Let validated' := validated buffer_from_base64 buffer_to_base64 greater_than_zero.
Let with_request' := with_request buffer_from_base64 buffer_to_base64 greater_than_zero.

Lemma validated_eq (w : world) (msg : js_string) (r : request) (closed : bool) :
  model_init w (modelName (aiModel r)) = None ->
  validated' w msg r closed
  = (Ok (StreamResponse stream_headers), true,
     GetModel (modelName (aiModel r))
       :: effects_of (start' w msg r (tools_for (aiModel r) (useGrounding r)) closed)).
Proof.
  intros Hinit. unfold validated', validated. unfold bind at 1, emit. rewrite Hinit.
  unfold bind.
  pose proof (start_returns w msg r (tools_for (aiModel r) (useGrounding r)) closed) as Hs.
  unfold start' in *.
  destruct (start buffer_from_base64 buffer_to_base64 greater_than_zero w msg r
              (tools_for (aiModel r) (useGrounding r)) closed) as [[v c] l].
  unfold value_of, closed_after, effects_of in *. simpl in *.
  destruct Hs as [-> ->]. rewrite app_nil_r. reflexivity.
Qed.

Lemma with_request_valid (w : world) (r : request) (msg : js_string) (closed : bool) :
  message r = Some (JStr msg) ->
  msg <> [] ->
  (N.of_nat (List.length msg) <= 100000)%N ->
  with_request' w r closed = validated' w msg r closed.
Proof.
  intros Hm Hne Hlen. unfold with_request', with_request. rewrite Hm.
  destruct msg as [|c msg]; [congruence|]. cbn [truthy negb].
  apply N.ltb_ge in Hlen. unfold message_limit. rewrite Hlen. reflexivity.
Qed.

(** A request either reaches the model construction with a valid message
    or is answered with a JSON error, nothing having been called. *)
Lemma with_request_cases (w : world) (r : request) (closed : bool) :
  (exists msg,
     message r = Some (JStr msg) /\ msg <> [] /\
     (N.of_nat (List.length msg) <= 100000)%N /\
     model_init w (modelName (aiModel r)) = None) \/
  (exists status fields l,
     with_request' w r closed = (Ok (JsonResponse status fields), closed, l) /\
     calls l = [] /\ attempts l = []).
Proof.
  unfold with_request', with_request.
  destruct (message r) as [[|b|z|msg|xs|fs]|] eqn:Hm; cbn [truthy negb];
    try (right; do 3 eexists; split; [reflexivity | split; reflexivity]).
  - destruct b; right; do 3 eexists; (split; [reflexivity | split; reflexivity]).
  - destruct (negb (Z.eqb z 0)); right; do 3 eexists;
      (split; [reflexivity | split; reflexivity]).
  - destruct msg as [|c msg]; cbn [negb].
    + right; do 3 eexists; (split; [reflexivity | split; reflexivity]).
    + destruct (N.ltb message_limit (N.of_nat (List.length (c :: msg)))) eqn:Hlen.
      * right; do 3 eexists; (split; [reflexivity | split; reflexivity]).
      * destruct (model_init w (modelName (aiModel r))) as [t|] eqn:Hinit.
        -- right. unfold validated, bind, emit. rewrite Hinit.
           do 3 eexists; (split; [reflexivity | split; reflexivity]).
        -- left. exists (c :: msg). apply N.ltb_ge in Hlen.
           split; [reflexivity|]. split; [discriminate|].
           split; [exact Hlen | reflexivity].
Qed.

Lemma usable_key (k : option js_string) :
  ~ blank_key k -> exists c s c' s', k = Some (c :: s) /\ trim (c :: s) = c' :: s'.
Proof.
  intros H. destruct k as [[|c s]|]; simpl in H; try tauto.
  destruct (trim (c :: s)) as [|c' s'] eqn:Ht.
  - apply trim_nil in Ht. tauto.
  - eauto 6.
Qed.

(** An accepted request is answered with the event stream; its effects
    are the body parse, the model construction and the producer's run. *)
Lemma serve_accepted (w : world) (r : request) (msg : js_string) :
  accepted w r msg ->
  serve' w
  = (Ok (StreamResponse stream_headers), true,
     ParseBody :: GetModel (modelName (aiModel r))
       :: effects_of (start' w msg r (tools_for (aiModel r) (useGrounding r)) false)).
Proof.
  intros (Hkey & (b & Hb & Hd) & Hm & Hne & Hlen & Hinit).
  destruct (usable_key _ Hkey) as (c & k & c' & k' & Hk & Ht).
  unfold serve', serve, POST, try_catch. rewrite Hk. cbv beta iota. rewrite Ht.
  unfold with_key. unfold bind at 1, emit. rewrite Hb.
  unfold bind at 1. rewrite Hd.
  fold with_request'. rewrite (with_request_valid w r msg false Hm Hne Hlen).
  rewrite (validated_eq w msg r false Hinit). reflexivity.
Qed.

(** Every request is either accepted or answered with a JSON error
    without any provider call or stream write. *)
Lemma serve_cases (w : world) :
  (exists r msg, accepted w r msg) \/
  (exists status fields l,
     serve' w = (Ok (JsonResponse status fields), false, l) /\
     calls l = [] /\ attempts l = []).
Proof.
  unfold serve', serve, POST, try_catch.
  destruct (env_key w) as [[|c k]|] eqn:Hk;
    try (right; do 3 eexists; split; [reflexivity | split; reflexivity]).
  destruct (trim (c :: k)) as [|c' k'] eqn:Ht;
    [right; do 3 eexists; split; [reflexivity | split; reflexivity]|].
  assert (Hkey : ~ blank_key (env_key w)).
  { rewrite Hk. unfold blank_key. intros Hb. apply trim_nil in Hb. congruence. }
  unfold with_key. unfold bind at 1, emit.
  destruct (body w) as [b|] eqn:Hb;
    [|right; do 3 eexists; split; [reflexivity | split; reflexivity]].
  unfold bind at 1.
  destruct (destructure b) as [r|t] eqn:Hd.
  - fold with_request'.
    destruct (with_request_cases w r false) as [(msg & Hm & Hne & Hlen & Hinit) | (st & fs & l & H & Hc & Ha)].
    + left. exists r, msg. repeat split; eauto.
    + right. rewrite H. exists st, fs, (ParseBody :: l).
      split; [reflexivity | split; assumption].
  - right. unfold outer_catch, ret. destruct (classify t) as [st m].
    do 3 eexists; split; [reflexivity | split; reflexivity].
Qed.

Lemma start_calls (w : world) (msg : js_string) (r : request) (tls : list tool)
    (closed : bool) :
  calls (effects_of (start' w msg r tls closed))
  = calls (effects_of (request_stream' w msg r tls closed)).
Proof.
  rewrite start_eq.
  destruct (request_stream' w msg r tls closed) as [[[res|t] c1] l1].
  - assert (Hrelay : calls (effects_of (relay (items res) (failure res) c1)) = []).
    { clear. generalize c1. induction (items res) as [|[text stamp|] rest IH]; intros c.
      - simpl. destruct (failure res); reflexivity.
      - destruct text as [|ch text]; [exact (IH c)|]. destruct c.
        + reflexivity.
        + rewrite relay_chunk_open. specialize (IH false).
          destruct (relay rest (failure res) false) as [[v cl] l]. exact IH.
      - rewrite relay_cancel. exact (IH true). }
    destruct (relay (items res) (failure res) c1) as [[[u|t] c2] l2];
      unfold effects_of in *; simpl in *;
      rewrite !calls_app, Hrelay; destruct c2; simpl; rewrite ?app_nil_r; reflexivity.
  - unfold effects_of; simpl. rewrite calls_app. destruct c1; simpl; apply app_nil_r.
Qed.

Lemma invalid_message_rejected (w : world) (b : value) (r : request) :
  ~ blank_key (env_key w) ->
  body w = Some b ->
  destructure b = Ok r ->
  message_invalid (message r) ->
  exists fields, serve' w = (Ok (JsonResponse 400 fields), false, [ParseBody]).
Proof.
  intros Hkey Hb Hd Hinv.
  destruct (usable_key _ Hkey) as (c & k & c' & k' & Hk & Ht).
  unfold serve', serve, POST, try_catch. rewrite Hk. cbv beta iota. rewrite Ht.
  unfold with_key. unfold bind at 1, emit. rewrite Hb.
  unfold bind at 1. rewrite Hd. unfold with_request.
  destruct (message r) as [[|x|z|msg|xs|fs]|]; cbn [truthy negb];
    try (eexists; reflexivity).
  - destruct x; eexists; reflexivity.
  - destruct (negb (Z.eqb z 0)); eexists; reflexivity.
  - destruct msg as [|ch msg]; [eexists; reflexivity|]. cbn [negb].
    destruct Hinv as [Hinv | Hinv]; [discriminate|].
    apply N.ltb_lt in Hinv. unfold message_limit. rewrite Hinv.
    eexists; reflexivity.
Qed.

(** ** The properties of the specification *)

(** C9. When the provider credential is absent from the environment, or
    is the empty string, or is white space only, the handler answers
    with one of its two configuration-error responses, both of status
    500, and performs no effect at all: the body is not parsed and the
    provider is not called. *)
Theorem missing_credential_is_500 (w : world) :
  blank_key (env_key w) ->
  (serve' w = (Ok missing_key_response, false, []) \/
   serve' w = (Ok blank_key_response, false, [])) /\
  status_of missing_key_response = Some 500 /\
  status_of blank_key_response = Some 500 /\
  ~ In ParseBody (effects_of (serve' w)) /\
  calls (effects_of (serve' w)) = [].
Proof.
  intros Hblank.
  assert (H : serve' w = (Ok missing_key_response, false, []) \/
              serve' w = (Ok blank_key_response, false, [])).
  { unfold serve', serve, POST, try_catch.
    destruct (env_key w) as [[|c k]|]; [left; reflexivity | | left; reflexivity].
    unfold blank_key in Hblank. apply trim_nil in Hblank. rewrite Hblank.
    right. reflexivity. }
  split; [exact H|].
  split; [reflexivity|]. split; [reflexivity|].
  destruct H as [-> | ->]; split; (reflexivity || (intros []; fail)).
Qed.

(** C1, as amended. For every accepted request the model handle is
    built for [modelName aiModel], where ["pro"] selects the premium
    model, ["smart"] (also taken when the field is absent) selects the
    standard model, and every other value, ["internet"] among them,
    selects the legacy search-capable model. *)
Theorem model_selection (w : world) (r : request) (msg : js_string) :
  accepted w r msg ->
  (exists rest,
     effects_of (serve' w) = ParseBody :: GetModel (modelName (aiModel r)) :: rest) /\
  (aiModel r = JStr (lit "pro") -> modelName (aiModel r) = premium_model) /\
  (aiModel r = JStr (lit "smart") -> modelName (aiModel r) = standard_model) /\
  (aiModel r = JStr (lit "internet") -> modelName (aiModel r) = legacy_model) /\
  (aiModel r <> JStr (lit "pro") -> aiModel r <> JStr (lit "smart") ->
   modelName (aiModel r) = legacy_model) /\
  (forall fields,
     get_field (lit "aiModel") fields = None ->
     aiModel (fields_of (fun k => get_field k fields)) = JStr (lit "smart")).
Proof.
  intros Hacc. split.
  { rewrite (serve_accepted w r msg Hacc). eexists. reflexivity. }
  split; [intros ->; reflexivity|].
  split; [intros ->; reflexivity|].
  split; [intros ->; reflexivity|].
  split.
  - intros Hpro Hsmart. unfold modelName.
    destruct (is_string (lit "pro") (aiModel r)) eqn:E1.
    { destruct (aiModel r); try discriminate. apply eqb_eq in E1. congruence. }
    destruct (is_string (lit "smart") (aiModel r)) eqn:E2.
    { destruct (aiModel r); try discriminate. apply eqb_eq in E2. congruence. }
    reflexivity.
  - intros fields H. unfold fields_of. cbn [aiModel]. rewrite H. reflexivity.
Qed.

Lemma is_string_eq (s : js_string) (v : value) : is_string s v = true <-> v = JStr s.
Proof.
  destruct v; simpl; try (split; [discriminate | congruence]).
  rewrite eqb_eq. split; congruence.
Qed.

Lemma tools_for_search (a ug : value) :
  tools_for a ug = [GoogleSearch] /\ a = JStr (lit "internet") /\ truthy (Some ug) = true \/
  tools_for a ug = [] /\ ~ (a = JStr (lit "internet") /\ truthy (Some ug) = true).
Proof.
  unfold tools_for. destruct (is_string (lit "internet") a) eqn:E.
  - apply is_string_eq in E. destruct (truthy (Some ug)); simpl.
    + left. auto.
    + right. split; [reflexivity|]. intros [_ H]. discriminate.
  - right. split; [reflexivity|]. intros [H _]. apply is_string_eq in H. congruence.
Qed.

(** The provider calls of an accepted request: none, or the assembled
    request (which carries the selected tool list), or that request and
    its copy without the tool list. *)
Lemma accepted_calls (w : world) (r : request) (msg : js_string) :
  accepted w r msg ->
  calls (effects_of (serve' w)) = [] \/
  exists ps,
    let cfg := user_turn ps (tools_for (aiModel r) (useGrounding r)) in
    calls (effects_of (serve' w)) = [cfg] \/
    calls (effects_of (serve' w)) = [cfg; without_tools cfg].
Proof.
  intros Hacc.
  assert (E : calls (effects_of (serve' w))
              = calls (effects_of (request_stream' w msg r
                                     (tools_for (aiModel r) (useGrounding r)) false))).
  { rewrite (serve_accepted w r msg Hacc), <- start_calls. reflexivity. }
  rewrite E. clear E.
  destruct (request_stream_trace w msg r (tools_for (aiModel r) (useGrounding r)) false)
    as [H | [ps [H | H]]]; fold request_stream' in H; rewrite H.
  - left. reflexivity.
  - right. exists ps. left. reflexivity.
  - right. exists ps. right. reflexivity.
Qed.

(** Building the image parts throws a TypeError as soon as an element
    is not a string, without any effect. *)
Lemma map_image_parts_fails (xs : list value) (closed : bool) :
  forallb is_js_string xs = false ->
  exists m,
    map_image_parts buffer_from_base64 buffer_to_base64 xs closed
    = (Throw (TError m), closed, []) /\
    (m = msg_replace_not_function \/ m = msg_replace_of_null).
Proof.
  induction xs as [|x xs IH]; simpl; [discriminate|].
  intros H. cbn [map_image_parts].
  destruct x as [|b|z|str|ys|fs]; simpl in H;
    try (eexists; split; [apply bind_throw; reflexivity | auto]).
  destruct (IH H) as [m [Hm Hor]]. exists m. split; [|exact Hor].
  rewrite (bind_pure _ _ (image_part' str)) by reflexivity.
  apply bind_throw. exact Hm.
Qed.

Lemma strings_of_map (xs : list value) :
  forallb is_js_string xs = true -> xs = map JStr (strings_of xs).
Proof.
  induction xs as [|x xs IH]; simpl; [reflexivity|].
  destruct x; simpl; try discriminate. intros H. rewrite <- (IH H). reflexivity.
Qed.

Let built_parts' := built_parts buffer_from_base64 buffer_to_base64 greater_than_zero.

(** When the parts can be built, the three-way choice of [start] is the
    call with fallback on the request holding those parts. *)
Lemma request_stream_built (w : world) (msg : js_string) (r : request)
    (tls : list tool) (closed : bool) (ps : list part) :
  built_parts' msg r = Some ps ->
  request_stream' w msg r tls closed
  = generateStreamWithFallback w (useGrounding r) (user_turn ps tls) closed.
Proof.
  unfold built_parts', built_parts, request_stream', request_stream.
  destruct (has_images greater_than_zero (images r)) eqn:Hi.
  - destruct (images r) as [[|b|z|str|xs|fs]|]; try discriminate.
    destruct (forallb is_js_string xs) eqn:Hs; [|discriminate].
    intros H. injection H as <-. cbn [images_map].
    rewrite (strings_of_map xs Hs) at 1.
    exact (bind_pure
             (map_image_parts buffer_from_base64 buffer_to_base64
                (map JStr (strings_of xs)))
             (fun imageParts =>
                generateStreamWithFallback w (useGrounding r)
                  (user_turn (TextPart msg :: imageParts) tls))
             (map image_part' (strings_of xs)) closed
             (map_image_parts_strings (strings_of xs) closed)).
  - destruct (image r) as [[|b|z|[|c str]|xs|fs]|]; cbn [truthy];
      try (intros H; injection H as <-; reflexivity); try discriminate.
    + destruct b; [discriminate | intros H; injection H as <-; reflexivity].
    + destruct (negb (Z.eqb z 0)); [discriminate | intros H; injection H as <-; reflexivity].
    + intros H. injection H as <-. cbn [image_part_of].
      exact (bind_pure
               (ret (image_part' (c :: str)))
               (fun imagePart =>
                  generateStreamWithFallback w (useGrounding r)
                    (user_turn [TextPart msg; imagePart] tls))
               (image_part' (c :: str)) closed eq_refl).
Qed.

(** When they cannot, building them throws a TypeError before any call. *)
Lemma request_stream_unbuilt (w : world) (msg : js_string) (r : request)
    (tls : list tool) (closed : bool) :
  built_parts' msg r = None ->
  exists m, request_stream' w msg r tls closed = (Throw (TError m), closed, []).
Proof.
  unfold built_parts', built_parts, request_stream', request_stream.
  destruct (has_images greater_than_zero (images r)) eqn:Hi.
  - destruct (images r) as [[|b|z|str|xs|fs]|];
      try (intros _; eexists; apply bind_throw; reflexivity).
    destruct (forallb is_js_string xs) eqn:Hs; [discriminate|]. intros _.
    destruct (map_image_parts_fails xs closed Hs) as [m [Hm _]].
    exists m. cbn [images_map]. apply bind_throw. exact Hm.
  - destruct (image r) as [[|b|z|[|c str]|xs|fs]|]; cbn [truthy]; try discriminate;
      try (intros _; eexists; apply bind_throw; reflexivity).
    + destruct b; [|discriminate]. intros _. eexists. apply bind_throw. reflexivity.
    + destruct (negb (Z.eqb z 0)); [|discriminate].
      intros _. eexists. apply bind_throw. reflexivity.
Qed.

(** C3. For every accepted request whose parts can be built, the
    provider is called, and the first request it receives holds those
    parts and the tool list [tools_for aiModel useGrounding]; a second
    request, if any, has no tool list. That list holds the search tool
    exactly when [aiModel] is ["internet"] and [useGrounding] is true
    (truthy, the default when absent), and is empty otherwise; so no
    provider call carries the search tool otherwise, and for ["pro"] and
    ["smart"] every call has an empty tool list or none, whatever
    [useGrounding] is. When the parts cannot be built there is no provider
    request at all. *)
Theorem search_tool_attachment (w : world) (r : request) (msg : js_string) :
  accepted w r msg ->
  let tls := tools_for (aiModel r) (useGrounding r) in
  (forall ps,
     built_parts' msg r = Some ps ->
     exists rest,
       calls (effects_of (serve' w))
       = {| contents := [ {| role := lit "user"; parts := ps |} ];
            tools := Some tls |} :: rest /\
       forall c, In c rest -> tools c = None) /\
  (built_parts' msg r = None -> calls (effects_of (serve' w)) = []) /\
  (has_images greater_than_zero (images r) = false -> truthy (image r) = false ->
   built_parts' msg r = Some [TextPart msg]) /\
  (tls = [GoogleSearch] /\
   aiModel r = JStr (lit "internet") /\ truthy (Some (useGrounding r)) = true \/
   tls = [] /\
   ~ (aiModel r = JStr (lit "internet") /\ truthy (Some (useGrounding r)) = true)) /\
  (forall cfg rest,
     calls (effects_of (serve' w)) = cfg :: rest ->
     tools cfg = Some (tools_for (aiModel r) (useGrounding r)) /\
     (has_search cfg = true <->
      aiModel r = JStr (lit "internet") /\ truthy (Some (useGrounding r)) = true)) /\
  (forall cfg,
     In cfg (calls (effects_of (serve' w))) -> has_search cfg = true ->
     aiModel r = JStr (lit "internet") /\ truthy (Some (useGrounding r)) = true) /\
  (aiModel r = JStr (lit "pro") \/ aiModel r = JStr (lit "smart") ->
   forall cfg,
     In cfg (calls (effects_of (serve' w))) ->
     tools cfg = Some [] \/ tools cfg = None).
Proof.
  intros Hacc tls.
  assert (E : calls (effects_of (serve' w))
              = calls (effects_of (request_stream' w msg r tls false))).
  { rewrite (serve_accepted w r msg Hacc), <- start_calls. reflexivity. }
  split.
  { intros ps Hps. rewrite E, (request_stream_built w msg r tls false ps Hps).
    destruct (fallback_calls w (useGrounding r) (user_turn ps tls) false) as [-> | ->].
    - exists []. split; [reflexivity | intros c []].
    - exists [without_tools (user_turn ps tls)].
      split; [reflexivity | intros c [<- | []]; reflexivity]. }
  split.
  { intros Hn. destruct (request_stream_unbuilt w msg r tls false Hn) as [m Hm].
    rewrite E, Hm. reflexivity. }
  split.
  { intros Hi Him. unfold built_parts', built_parts. rewrite Hi.
    destruct (image r) as [[|b|z|[|c str]|xs|fs]|]; cbn [truthy] in *;
      try discriminate; try rewrite Him; reflexivity. }
  split; [exact (tools_for_search (aiModel r) (useGrounding r))|].
  assert (Hfirst : forall ps,
    has_search (user_turn ps (tools_for (aiModel r) (useGrounding r))) = true <->
    aiModel r = JStr (lit "internet") /\ truthy (Some (useGrounding r)) = true).
  { intros ps. unfold has_search, user_turn. cbn [tools].
    destruct (tools_for_search (aiModel r) (useGrounding r)) as [[-> H] | [-> H]].
    - split; [intros _; exact H | reflexivity].
    - split; [discriminate | intros H'; contradiction]. }
  pose proof (accepted_calls w r msg Hacc) as [H | [ps H]]; [|cbv zeta in H].
  - rewrite H. split; [intros cfg rest; discriminate|].
    split; [intros cfg []|]. intros _ cfg [].
  - split; [|split].
    + intros cfg rest Hc.
      assert (cfg = user_turn ps (tools_for (aiModel r) (useGrounding r)))
        by (destruct H as [H | H]; rewrite H in Hc; congruence).
      subst cfg. split; [reflexivity | apply Hfirst].
    + intros cfg Hin Hs.
      destruct H as [H | H]; rewrite H in Hin; simpl in Hin.
      * destruct Hin as [<- | []]. apply Hfirst in Hs. exact Hs.
      * destruct Hin as [<- | [<- | []]]; [apply Hfirst in Hs; exact Hs | discriminate].
    + intros Htier cfg Hin.
      assert (Hempty : tools_for (aiModel r) (useGrounding r) = []).
      { destruct (tools_for_search (aiModel r) (useGrounding r)) as [[_ [Hi _]] | [He _]];
          [|exact He].
        destruct Htier as [Ht | Ht]; rewrite Ht in Hi; discriminate. }
      destruct H as [H | H]; rewrite H in Hin; simpl in Hin.
      * destruct Hin as [<- | []]. left. cbn. rewrite Hempty. reflexivity.
      * destruct Hin as [<- | [<- | []]];
          [left; cbn; rewrite Hempty; reflexivity | right; reflexivity].
Qed.

(** C4, as amended. When the first provider call fails with a value
    whose message says that search grounding is not supported and the
    request's [useGrounding] is truthy, the provider is called exactly
    once more, with the same contents and no tool list, and the outcome
    of that second call, success or failure, is the outcome of the whole;
    when the first call fails otherwise (another message, no message, or
    [useGrounding] falsy), the provider is not called again and the
    failure propagates; and no request makes more than two provider
    calls. *)
Theorem fallback_policy (w : world) (ug : value) (cfg : request_config)
    (closed : bool) :
  (forall gone t,
     provider w 0%nat cfg = Rejects gone t ->
     retries ug t = true ->
     calls (effects_of (generateStreamWithFallback w ug cfg closed))
     = [cfg; without_tools cfg] /\
     contents (without_tools cfg) = contents cfg /\
     tools (without_tools cfg) = None /\
     value_of (generateStreamWithFallback w ug cfg closed)
     = match provider w 1%nat (without_tools cfg) with
       | Resolves s => Ok s
       | Rejects _ t' => Throw t'
       end) /\
  (forall gone t,
     provider w 0%nat cfg = Rejects gone t ->
     retries ug t = false ->
     calls (effects_of (generateStreamWithFallback w ug cfg closed)) = [cfg] /\
     value_of (generateStreamWithFallback w ug cfg closed) = Throw (rethrown ug t)) /\
  (forall t,
     retries ug t = true <->
     truthy (Some ug) = true /\
     exists m, error_message t = Some m /\
       (contains (lit "Search Grounding is not supported") m \/
        contains (lit "google_search_retrieval is not supported") m)) /\
  (List.length (calls (effects_of (generateStreamWithFallback w ug cfg closed))) <= 2)%nat /\
  (List.length (calls (effects_of (serve' w))) <= 2)%nat.
Proof.
  split; [|split; [|split; [|split]]].
  - intros gone t H Hr. rewrite (fallback_retry _ _ _ closed _ _ H Hr).
    destruct (provider w 1%nat (without_tools cfg)); repeat split; reflexivity.
  - intros gone t H Hr. rewrite (fallback_no_retry _ _ _ closed _ _ H Hr).
    split; reflexivity.
  - intros t. unfold retries, grounding_unsupported.
    rewrite andb_true_iff. split.
    + intros [Hug Hm]. split; [exact Hug|].
      destruct (error_message t) as [m|]; [|discriminate].
      exists m. split; [reflexivity|].
      apply orb_true_iff in Hm. rewrite !includes_spec in Hm. exact Hm.
    + intros [Hug [m [-> Hm]]]. split; [exact Hug|].
      apply orb_true_iff. rewrite !includes_spec. exact Hm.
  - destruct (fallback_calls w ug cfg closed) as [-> | ->]; simpl; lia.
  - destruct (serve_cases w)
      as [(r & msg & Hacc) | (st & fs & l & H & Hc & _)].
    + destruct (accepted_calls w r msg Hacc) as [H | [ps [H | H]]];
        rewrite H; simpl; lia.
    + fold serve' in H. rewrite H. unfold effects_of; simpl. rewrite Hc. simpl. lia.
Qed.

Lemma request_stream_text_only (w : world) (msg : js_string) (r : request)
    (tls : list tool) (closed : bool) :
  has_images greater_than_zero (images r) = false ->
  truthy (image r) = false ->
  request_stream' w msg r tls closed
  = generateStreamWithFallback w (useGrounding r) (user_turn [TextPart msg] tls) closed.
Proof.
  intros Hi Ht. unfold request_stream', request_stream. rewrite Hi.
  destruct (image r) as [img|]; [rewrite Ht|]; reflexivity.
Qed.

Lemma request_stream_images (w : world) (msg : js_string) (r : request)
    (tls : list tool) (closed : bool) (strs : list js_string) :
  strs <> [] ->
  images r = Some (JArr (map JStr strs)) ->
  request_stream' w msg r tls closed
  = generateStreamWithFallback w (useGrounding r)
      (user_turn (TextPart msg :: map image_part' strs) tls) closed.
Proof.
  intros Hne Hi. unfold request_stream', request_stream. rewrite Hi.
  destruct strs as [|s strs]; [congruence|]. cbn [has_images map images_map].
  exact (bind_pure
           (map_image_parts buffer_from_base64 buffer_to_base64 (map JStr (s :: strs)))
           (fun imageParts =>
              generateStreamWithFallback w (useGrounding r)
                (user_turn (TextPart msg :: imageParts) tls))
           (map image_part' (s :: strs)) closed
           (map_image_parts_strings (s :: strs) closed)).
Qed.

Lemma request_stream_image (w : world) (msg : js_string) (r : request)
    (tls : list tool) (closed : bool) (s : js_string) :
  has_images greater_than_zero (images r) = false ->
  image r = Some (JStr s) ->
  s <> [] ->
  request_stream' w msg r tls closed
  = generateStreamWithFallback w (useGrounding r)
      (user_turn [TextPart msg; image_part' s] tls) closed.
Proof.
  intros Hi Him Hne. unfold request_stream', request_stream. rewrite Hi, Him.
  destruct s as [|c s]; [congruence|]. cbn [truthy image_part_of].
  exact (bind_pure
           (ret (image_part' (c :: s)))
           (fun imagePart =>
              generateStreamWithFallback w (useGrounding r)
                (user_turn [TextPart msg; imagePart] tls))
           (image_part' (c :: s)) closed eq_refl).
Qed.

Lemma terminating_cases (e : event) :
  is_terminating e = true -> e = Done \/ exists m, e = ErrorEvent m.
Proof. destruct e; cbv; intros H; try discriminate; eauto. Qed.

(** C10. The retry of the fallback is decided by the request's
    [useGrounding], not by its tier. For every request whose parts were
    built, text-only or with images, of any [aiModel], and whose first
    provider call fails with a message saying that search grounding is
    not supported: with [useGrounding] falsy the provider is called once
    and the producer goes on to enqueue one Error event carrying that
    failure (accepted when the client is still there); with
    [useGrounding] truthy the provider is called a second time with the
    same contents and no tool list, and that also when the tier is not
    ["internet"], whose tool list was empty already. *)
Theorem fallback_gated_on_flag (w : world) (r : request) (msg : js_string)
    (ps : list part) (gone : bool) (t : thrown) (m : js_string) :
  let tls := tools_for (aiModel r) (useGrounding r) in
  let turn := [ {| role := lit "user"; parts := ps |} ] in
  let cfg := {| contents := turn; tools := Some tls |} in
  built_parts' msg r = Some ps ->
  provider w 0%nat cfg = Rejects gone t ->
  error_message t = Some m ->
  grounding_unsupported m = true ->
  (truthy (Some (useGrounding r)) = false ->
   effects_of (start' w msg r tls false)
   = Generate cfg
       :: (if gone
           then [Enqueue (ErrorEvent (stream_error_message t)) false]
           else [Enqueue (ErrorEvent (stream_error_message t)) true; Close true])) /\
  (truthy (Some (useGrounding r)) = true ->
   calls (effects_of (start' w msg r tls false))
   = [cfg; {| contents := turn; tools := None |}]) /\
  (aiModel r <> JStr (lit "internet") -> tools cfg = Some []).
Proof.
  intros tls turn cfg Hps Hp Hm Hg. split; [|split].
  - intros Hug.
    assert (Hr : retries (useGrounding r) t = false)
      by (unfold retries; rewrite Hug; reflexivity).
    rewrite start_eq, (request_stream_built w msg r tls false ps Hps).
    change (user_turn ps tls) with cfg.
    rewrite (fallback_no_retry _ _ _ false _ _ Hp Hr).
    unfold rethrown. rewrite Hug. destruct t; destruct gone; reflexivity.
  - intros Hug.
    assert (Hr : retries (useGrounding r) t = true)
      by (unfold retries; rewrite Hug, Hm, Hg; reflexivity).
    rewrite start_calls, (request_stream_built w msg r tls false ps Hps).
    change (user_turn ps tls) with cfg.
    rewrite (fallback_retry _ _ _ false _ _ Hp Hr).
    destruct (provider w 1%nat (without_tools cfg)); reflexivity.
  - intros Htier. unfold cfg, tls. cbn [tools].
    destruct (tools_for_search (aiModel r) (useGrounding r)) as [[_ [H _]] | [-> _]];
      [contradiction | reflexivity].
Qed.

Ltac split_list mid H :=
  destruct mid as [|? [|? [|? ?]]]; simpl in H; try discriminate H;
  injection H as H; repeat (let H' := fresh in injection H as H' H);
  subst; try discriminate.

(** C2. In every run of the stream producer the events the outbound
    stream accepts are Token events followed by at most one closing
    event, Done or Error; once a closing event has been accepted no
    further enqueue is even attempted; and for a text-only request whose
    provider call yields a stream that ends without failure while the
    client stays connected, the accepted events are the Token events of
    the non-empty chunks, in order, followed by exactly one Done. *)
Theorem stream_protocol (w : world) (r : request) (msg : js_string)
    (tls : list tool) :
  let l := effects_of (start' w msg r tls false) in
  (exists toks ending,
     delivered l = toks ++ ending /\
     forallb is_token toks = true /\
     (ending = [] \/ ending = [Done] \/ exists m, ending = [ErrorEvent m])) /\
  (forall l1 e l2,
     l = l1 ++ Enqueue e true :: l2 -> is_terminating e = true -> attempts l2 = []) /\
  (forall s,
     has_images greater_than_zero (images r) = false ->
     truthy (image r) = false ->
     value_of (generateStreamWithFallback w (useGrounding r)
                 (user_turn [TextPart msg] tls) false) = Ok s ->
     closed_after (generateStreamWithFallback w (useGrounding r)
                     (user_turn [TextPart msg] tls) false) = false ->
     failure s = None ->
     ~ In Cancel (items s) ->
     delivered l = tokens_of (items s) ++ [Done]).
Proof.
  intros l. subst l. split; [|split].
  - destruct (start_trace w msg r tls false)
      as [pre [Hpre [(e & c & He & H) | (text & stamp & H)]]]; rewrite H, delivered_app.
    + exists (delivered pre), (if c then [] else [e]).
      split; [destruct c; reflexivity|].
      split; [apply relayed_delivered; exact Hpre|].
      destruct c; [left; reflexivity|]. right.
      destruct (terminating_cases e He) as [-> | [m ->]]; eauto.
    + exists (delivered pre), []. split; [reflexivity|].
      split; [apply relayed_delivered; exact Hpre | left; reflexivity].
  - intros l1 e l2 Hl He.
    destruct (start_trace w msg r tls false)
      as [pre [Hpre [(e' & c & He' & H) | (text & stamp & H)]]]; rewrite H in Hl;
      destruct (split_behind accepted_end pre _ l1 l2 (Enqueue e true)
                  (relayed_pre_no_end pre Hpre) He Hl) as [mid [_ Hmid]].
    + destruct c; cbn [final_effects] in Hmid; split_list mid Hmid. reflexivity.
    + split_list mid Hmid.
  - intros s Hi Him Hv Hc Hf Hcancel.
    rewrite start_eq, (request_stream_text_only w msg r tls false Hi Him).
    pose proof (fallback_calls w (useGrounding r) (user_turn [TextPart msg] tls) false) as Hl.
    destruct (generateStreamWithFallback w (useGrounding r)
                (user_turn [TextPart msg] tls) false) as [[v c] gl].
    unfold value_of, closed_after, effects_of in Hv, Hc, Hl. simpl in Hv, Hc, Hl.
    subst v c. rewrite (relay_open _ _ Hcancel), Hf.
    unfold effects_of; simpl. rewrite !delivered_app.
    assert (Hgl : delivered gl = []) by (destruct Hl as [-> | ->]; reflexivity).
    rewrite Hgl, delivered_accepted. reflexivity.
Qed.

(** The handler itself never throws: every request gets a response. *)
Lemma POST_returns (w : world) : exists resp, value_of (serve' w) = Ok resp.
Proof.
  destruct (serve_cases w) as [(r & msg & Hacc) | (st & fs & l & H & _)].
  - rewrite (serve_accepted w r msg Hacc). eexists. reflexivity.
  - rewrite H. eexists. reflexivity.
Qed.

(** C6, as amended. When the stream refuses a Token event, the relay
    loop stops there: everything before was a provider call or an
    accepted Token event, and the only thing attempted afterwards is the
    enqueue of the Done event, which the closed stream refuses too and the
    producer swallows. No event is delivered after the refusal, the
    producer returns normally, and the handler returns a response. *)
Theorem silent_stop (w : world) (r : request) (msg : js_string) (tls : list tool)
    (l1 l2 : list effect) (text stamp : js_string) :
  effects_of (start' w msg r tls false) = l1 ++ Enqueue (Token text stamp) false :: l2 ->
  l2 = [Enqueue Done false] /\
  forallb relayed l1 = true /\
  delivered (effects_of (start' w msg r tls false)) = delivered l1 /\
  value_of (start' w msg r tls false) = Ok tt /\
  exists resp, value_of (serve' w) = Ok resp.
Proof.
  intros Hl.
  assert (H2 : l2 = [Enqueue Done false] /\ forallb relayed l1 = true).
  { destruct (start_trace w msg r tls false)
      as [pre [Hpre [(e & c & He & H) | (text' & stamp' & H)]]]; rewrite H in Hl;
      destruct (split_behind refused_token pre _ l1 l2 (Enqueue (Token text stamp) false)
                  (relayed_pre_no_refusal pre Hpre) eq_refl Hl) as [mid [Hl1 Hmid]].
    - destruct c; cbn [final_effects] in Hmid; split_list mid Hmid.
    - split_list mid Hmid. split; [reflexivity|]. rewrite app_nil_r. exact Hpre. }
  destruct H2 as [-> Hrel]. split; [reflexivity|]. split; [exact Hrel|].
  split; [rewrite Hl, delivered_app; simpl; apply app_nil_r|].
  split; [apply start_returns | apply POST_returns].
Qed.

Lemma strip_data_uri_match (kind data : js_string) :
  kind <> [] ->
  forallb is_word kind = true ->
  strip_data_uri (lit "data:image/" ++ kind ++ lit ";base64," ++ data) = data.
Proof.
  intros Hne Hw. unfold strip_data_uri. rewrite strip_prefix_app.
  rewrite (span_run is_word kind (lit ";base64," ++ data) Hw) by reflexivity.
  destruct kind as [|c kind]; [congruence|]. rewrite strip_prefix_app. reflexivity.
Qed.

Lemma strip_data_uri_cases (s : js_string) :
  strip_data_uri s = s \/
  exists kind data,
    kind <> [] /\ forallb is_word kind = true /\
    s = lit "data:image/" ++ kind ++ lit ";base64," ++ data /\
    strip_data_uri s = data.
Proof.
  unfold strip_data_uri.
  destruct (strip_prefix (lit "data:image/") s) as [after|] eqn:Hp; [|left; reflexivity].
  apply strip_prefix_Some in Hp.
  pose proof (span_spec is_word after) as [Hs Hw].
  destruct (span is_word after) as [[|c kind] rest]; [left; reflexivity|].
  simpl fst in *; simpl snd in *.
  destruct (strip_prefix (lit ";base64,") rest) as [data|] eqn:Hr; [|left; reflexivity].
  apply strip_prefix_Some in Hr. right. exists (c :: kind), data.
  split; [discriminate|]. split; [exact Hw|]. split; [|reflexivity].
  rewrite Hp, Hs, Hr. reflexivity.
Qed.

(** C7, as amended. For every accepted request the parts sent to the
    provider are: with a non-empty [images] array of strings, the text
    part followed by one image part per element, in array order;
    otherwise, when [images] has no positive length, with a non-empty
    [image] string, the text part followed by that one image part;
    otherwise, with [image] absent or falsy, the text part alone. When an
    element of the array is not a string, when [images] has a positive
    length without being an array, or when a truthy [image] is not a
    string, nothing is sent to the provider and the stream carries one
    Error event. An image part holds the string with its data-URI prefix
    [data:image/<word>;base64,] removed when it has one, decoded from
    base64 and encoded again, under the MIME type [image/jpeg]. A retry
    sends the same parts without the tool list. *)
Theorem content_parts (w : world) (r : request) (msg : js_string) :
  accepted w r msg ->
  let tls := tools_for (aiModel r) (useGrounding r) in
  let request ps tl :=
    {| contents := [ {| role := lit "user"; parts := ps |} ]; tools := tl |} in
  let sent ps :=
    calls (effects_of (serve' w)) = [request ps (Some tls)] \/
    calls (effects_of (serve' w)) = [request ps (Some tls); request ps None] in
  let unsent :=
    calls (effects_of (serve' w)) = [] /\
    exists m, delivered (effects_of (serve' w)) = [ErrorEvent m] in
  (forall strs,
     strs <> [] -> images r = Some (JArr (map JStr strs)) ->
     sent (TextPart msg :: map image_part' strs)) /\
  (forall xs,
     images r = Some (JArr xs) -> forallb is_js_string xs = false -> unsent) /\
  (has_images greater_than_zero (images r) = true ->
   (forall xs, images r <> Some (JArr xs)) -> unsent) /\
  (forall s,
     has_images greater_than_zero (images r) = false ->
     image r = Some (JStr s) -> s <> [] ->
     sent [TextPart msg; image_part' s]) /\
  (has_images greater_than_zero (images r) = false ->
   truthy (image r) = true -> (forall s, image r <> Some (JStr s)) -> unsent) /\
  (has_images greater_than_zero (images r) = false ->
   truthy (image r) = false ->
   sent [TextPart msg]) /\
  (images r = None \/ images r = Some JNull \/ images r = Some (JArr []) ->
   has_images greater_than_zero (images r) = false) /\
  (forall s,
     image_part' s
     = InlineData (buffer_to_base64 (buffer_from_base64 (strip_data_uri s)))
         (lit "image/jpeg")) /\
  (forall kind data,
     kind <> [] -> forallb is_word kind = true ->
     strip_data_uri (lit "data:image/" ++ kind ++ lit ";base64," ++ data) = data) /\
  (forall s,
     strip_data_uri s = s \/
     exists kind data,
       kind <> [] /\ forallb is_word kind = true /\
       s = lit "data:image/" ++ kind ++ lit ";base64," ++ data).
Proof.
  intros Hacc tls request sent unsent.
  assert (E : calls (effects_of (serve' w))
              = calls (effects_of (request_stream' w msg r tls false))).
  { rewrite (serve_accepted w r msg Hacc), <- start_calls. reflexivity. }
  assert (Hsent : forall ps,
    request_stream' w msg r tls false
    = generateStreamWithFallback w (useGrounding r) (user_turn ps tls) false ->
    sent ps).
  { intros ps H. unfold sent. rewrite E, H.
    destruct (fallback_calls w (useGrounding r) (user_turn ps tls) false) as [-> | ->];
      [left | right]; reflexivity. }
  assert (Hunsent : built_parts' msg r = None -> unsent).
  { intros Hn. destruct (request_stream_unbuilt w msg r tls false Hn) as [m Hm].
    unfold unsent. split; [rewrite E, Hm; reflexivity|].
    exists m. rewrite (serve_accepted w r msg Hacc). fold tls.
    rewrite start_eq. fold request_stream'. rewrite Hm. reflexivity. }
  split; [|split; [|split; [|split; [|split; [|split; [|split; [|split; [|split]]]]]]]].
  - intros strs Hne Hi. apply Hsent. apply request_stream_images; assumption.
  - intros xs Hi Hbad. apply Hunsent. unfold built_parts', built_parts. rewrite Hi.
    destruct xs as [|x xs]; [discriminate Hbad|]. cbn [has_images].
    rewrite Hbad. reflexivity.
  - intros Hi Hna. apply Hunsent. unfold built_parts', built_parts. rewrite Hi.
    destruct (images r) as [[|b|z|str|xs|fs]|]; try reflexivity.
    exfalso. apply (Hna xs). reflexivity.
  - intros s Hi Him Hne. apply Hsent. apply request_stream_image; assumption.
  - intros Hi Ht Hns. apply Hunsent. unfold built_parts', built_parts. rewrite Hi.
    destruct (image r) as [[|b|z|[|c str]|xs|fs]|]; cbn [truthy] in *;
      try discriminate Ht; try rewrite Ht; try reflexivity.
    exfalso. apply (Hns (c :: str)). reflexivity.
  - intros Hi Him. apply Hsent. apply request_stream_text_only; assumption.
  - intros [-> | [-> | ->]]; reflexivity.
  - reflexivity.
  - apply strip_data_uri_match.
  - intros s. destruct (strip_data_uri_cases s) as [H | (ty & data & H1 & H2 & H3 & _)];
      [left; exact H | right; eauto].
Qed.

(** C8. The response of the outer error path has the fixed top-level
    message, the classified detail, the time stamp and the hint of its
    status, and the status follows the thrown value: an Error whose
    message contains "API key" gives 401; otherwise one containing
    "quota" or "limit" gives 429; otherwise one containing "network" or
    "fetch" gives 503; any other Error, and anything that is not an
    Error, gives 500. A request whose body is the JSON value null takes
    this path. *)
Theorem error_classification (w : world) (error : thrown) :
  (exists status details,
     outer_catch w error
     = JsonResponse status
         [ (lit "error", lit "Er is een fout opgetreden bij het verwerken van je bericht");
           (lit "details", details);
           (lit "timestamp", error_time w);
           (lit "hint", hint_for status) ] /\
     classify error = (status, details)) /\
  (forall m, error = TError m ->
     contains (lit "API key") m ->
     classify error = (401, lit "API key probleem: " ++ m)) /\
  (forall m, error = TError m ->
     ~ contains (lit "API key") m ->
     contains (lit "quota") m \/ contains (lit "limit") m ->
     classify error = (429, lit "API limiet bereikt: " ++ m)) /\
  (forall m, error = TError m ->
     ~ contains (lit "API key") m ->
     ~ contains (lit "quota") m -> ~ contains (lit "limit") m ->
     contains (lit "network") m \/ contains (lit "fetch") m ->
     classify error = (503, lit "Netwerk probleem: " ++ m)) /\
  (forall m, error = TError m ->
     ~ contains (lit "API key") m ->
     ~ contains (lit "quota") m -> ~ contains (lit "limit") m ->
     ~ contains (lit "network") m -> ~ contains (lit "fetch") m ->
     classify error = (500, m)) /\
  ((forall m, error <> TError m) -> classify error = (500, lit "Unknown error")) /\
  (hint_for 401 = lit "Controleer je GEMINI_API_KEY in environment variables" /\
   hint_for 429 = lit "Wacht even en probeer opnieuw" /\
   hint_for 503 = lit "Controleer je internetverbinding" /\
   hint_for 500 = lit "Probeer het opnieuw of neem contact op met support") /\
  (~ blank_key (env_key w) -> body w = Some JNull ->
   serve' w = (Ok (outer_catch w (TError msg_destructure_null)), false, [ParseBody])).
Proof.
  split; [|split; [|split; [|split; [|split; [|split; [|split]]]]]].
  - unfold outer_catch. destruct (classify error) as [status details].
    exists status, details. split; reflexivity.
  - intros m -> H. apply includes_spec in H. simpl. rewrite H. reflexivity.
  - intros m -> Hk H. apply includes_false in Hk.
    assert (Hq : includes (lit "quota") m || includes (lit "limit") m = true).
    { apply orb_true_iff. rewrite !includes_spec. exact H. }
    simpl. rewrite Hk, Hq. reflexivity.
  - intros m -> Hk Hq Hl H.
    apply includes_false in Hk. apply includes_false in Hq. apply includes_false in Hl.
    assert (Hn : includes (lit "network") m || includes (lit "fetch") m = true).
    { apply orb_true_iff. rewrite !includes_spec. exact H. }
    simpl. rewrite Hk, Hq, Hl, Hn. reflexivity.
  - intros m -> Hk Hq Hl Hn Hf.
    apply includes_false in Hk. apply includes_false in Hq. apply includes_false in Hl.
    apply includes_false in Hn. apply includes_false in Hf.
    simpl. rewrite Hk, Hq, Hl, Hn, Hf. reflexivity.
  - intros H. destruct error as [m| |]; [exfalso; apply (H m); reflexivity | |];
      reflexivity.
  - repeat split; reflexivity.
  - intros Hkey Hb.
    destruct (usable_key _ Hkey) as (c & k & c' & k' & Hk & Ht).
    unfold serve', serve, POST, try_catch. rewrite Hk. cbv beta iota. rewrite Ht.
    unfold with_key. unfold bind at 1, emit. rewrite Hb. reflexivity.
Qed.

End Handler_facts.

(** ** The properties on concrete requests *)

Import Example.

Ltac accept :=
  unfold accepted;
  split; [intros H; vm_compute in H; discriminate H|];
  split; [eexists; split; reflexivity|];
  split; [reflexivity|];
  split; [discriminate|];
  split; [vm_compute; discriminate | reflexivity].

(** C9 on a credential of three spaces. *)
Lemma missing_credential_witness :
  blank_key (env_key blank_credential) /\
  ~ In ParseBody (effects_of (run blank_credential)) /\
  calls (effects_of (run blank_credential)) = [].
Proof.
  split; [reflexivity|].
  apply (missing_credential_is_500 from_base64 to_base64 positive blank_credential).
  reflexivity.
Defined.

(** C5. A request whose body is the JSON value [null] has no message, yet
    it is not answered with status 400: destructuring the body throws,
    the outer error path answers with status 500. *)
Theorem null_body_is_500 :
  let w := world_with (Some JNull) (answers []) in
  run w = (Ok (outer_catch w (TError msg_destructure_null)), false, [ParseBody]) /\
  status_of (outer_catch w (TError msg_destructure_null)) = Some 500.
Proof. split; reflexivity. Qed.

(** C1, as stated, fails: the unrecognised tier ["turbo"] is neither
    ["pro"] nor ["internet"], and the model built for it is the legacy
    model, not the standard one. *)
Lemma unrecognised_tier_is_legacy :
  aiModel (request_of turbo) <> JStr (lit "pro") /\
  aiModel (request_of turbo) <> JStr (lit "internet") /\
  effects_of (run (world_with (body_of turbo) (answers [])))
  = [ParseBody; GetModel legacy_model;
     Generate (user_turn [TextPart (lit "hello")] []);
     Enqueue Done true; Close true] /\
  legacy_model <> standard_model.
Proof.
  split; [discriminate|]. split; [discriminate|]. split; [reflexivity | discriminate].
Defined.

(** C1, as amended, on the tier ["turbo"]. *)
Lemma model_selection_witness :
  let w := world_with (body_of turbo) (answers []) in
  accepted w (request_of turbo) (lit "hello") /\
  aiModel (request_of turbo) <> JStr (lit "pro") /\
  aiModel (request_of turbo) <> JStr (lit "smart") /\
  modelName (aiModel (request_of turbo)) = legacy_model.
Proof.
  intros w.
  assert (Hacc : accepted w (request_of turbo) (lit "hello")) by accept.
  split; [exact Hacc|]. split; [discriminate|]. split; [discriminate|].
  apply (model_selection from_base64 to_base64 positive w (request_of turbo)
           (lit "hello") Hacc); discriminate.
Defined.

(** C3 on the internet tier with grounding on: the provider is called,
    with the search tool. *)
Lemma search_tool_attachment_witness :
  let w := world_with (body_of internet_grounded) (answers ["hi"%string]) in
  accepted w (request_of internet_grounded) (lit "hello") /\
  built_parts from_base64 to_base64 positive (lit "hello") (request_of internet_grounded)
  = Some [TextPart (lit "hello")] /\
  exists rest,
    calls (effects_of (run w))
    = {| contents := [ {| role := lit "user"; parts := [TextPart (lit "hello")] |} ];
         tools := Some [GoogleSearch] |} :: rest /\
    forall c, In c rest -> tools c = None.
Proof.
  intros w.
  assert (Hacc : accepted w (request_of internet_grounded) (lit "hello")) by accept.
  split; [exact Hacc|]. split; [reflexivity|].
  exact (proj1 (search_tool_attachment from_base64 to_base64 positive w
                  (request_of internet_grounded) (lit "hello") Hacc)
           [TextPart (lit "hello")] eq_refl).
Defined.

(** C4, as stated, fails: with [useGrounding] false the first call is
    refused for want of search grounding and no second call is made; the
    failure goes to the stream as an Error event. *)
Lemma no_retry_without_flag :
  let w := world_with (body_of internet_ungrounded) refuses_grounding in
  let cfg := user_turn [TextPart (lit "hello")] [] in
  provider w 0%nat cfg = Rejects false (TError unsupported) /\
  grounding_unsupported unsupported = true /\
  calls (effects_of (run w)) = [cfg] /\
  delivered (effects_of (run w)) = [ErrorEvent unsupported].
Proof. repeat split; reflexivity. Defined.

(** C4, as amended, on a grounded request of the internet tier. *)
Lemma fallback_policy_witness :
  let w := world_with (body_of internet_grounded) refuses_grounding in
  let cfg := user_turn [TextPart (lit "hello")] [GoogleSearch] in
  provider w 0%nat cfg = Rejects false (TError unsupported) /\
  retries (JBool true) (TError unsupported) = true /\
  calls (effects_of (generateStreamWithFallback w (JBool true) cfg false))
  = [cfg; without_tools cfg].
Proof.
  intros w cfg. split; [reflexivity|]. split; [reflexivity|].
  apply (proj1 (fallback_policy from_base64 to_base64 positive w (JBool true) cfg false)
           false (TError unsupported)); reflexivity.
Defined.

(** C10 on a request with two images of the standard tier, whose tool
    list is empty, with grounding on: the retry fires, with the same
    parts and no tool list. *)
Lemma fallback_gated_on_flag_witness :
  let w := world_with (body_of two_images) refuses_grounding in
  let ps := [TextPart (lit "hello");
             InlineData (lit "aGk=") (lit "image/jpeg");
             InlineData (lit "QUJD") (lit "image/jpeg")] in
  let turn := [ {| role := lit "user"; parts := ps |} ] in
  built_parts from_base64 to_base64 positive (lit "hello") (request_of two_images)
  = Some ps /\
  provider w 0%nat {| contents := turn; tools := Some [] |}
  = Rejects false (TError unsupported) /\
  error_message (TError unsupported) = Some unsupported /\
  grounding_unsupported unsupported = true /\
  truthy (Some (useGrounding (request_of two_images))) = true /\
  calls (effects_of (start_of w (request_of two_images)))
  = [ {| contents := turn; tools := Some [] |}; {| contents := turn; tools := None |} ].
Proof.
  intros w ps turn. repeat (split; [reflexivity|]).
  exact (proj1 (proj2 (fallback_gated_on_flag from_base64 to_base64 positive w
                         (request_of two_images) (lit "hello") ps false
                         (TError unsupported) unsupported
                         eq_refl eq_refl eq_refl eq_refl))
           eq_refl).
Defined.

(** C2 on a text-only request answered with three chunks, the second of
    them empty. *)
Lemma stream_protocol_witness :
  let w := world_with (body_of plain) (answers ["a"; ""; "b"]%string) in
  let s := text_stream ["a"; ""; "b"]%string in
  has_images positive (images (request_of plain)) = false /\
  truthy (image (request_of plain)) = false /\
  failure s = None /\
  ~ In Cancel (items s) /\
  delivered (effects_of (start_of w (request_of plain)))
  = [Token (lit "a") clock; Token (lit "b") clock; Done].
Proof.
  intros w s.
  assert (Hc : ~ In Cancel (items s)).
  { intros H. vm_compute in H. intuition discriminate. }
  repeat (split; [reflexivity|]). split; [exact Hc|].
  exact (proj2 (proj2 (stream_protocol from_base64 to_base64 positive w
                         (request_of plain) (lit "hello") []))
           s eq_refl eq_refl eq_refl eq_refl eq_refl Hc).
Defined.

(** C6, as stated, fails: the client leaves after the first chunk, the
    second Token event is refused, and an enqueue of the Done event is
    attempted after it. *)
Lemma done_attempted_after_refusal :
  let w := world_with (body_of plain) client_leaves in
  exists l1 l2,
    effects_of (run w) = l1 ++ Enqueue (Token (lit "b") clock) false :: l2 /\
    attempts l2 = [Done].
Proof.
  exists [ParseBody; GetModel standard_model;
          Generate (user_turn [TextPart (lit "hello")] []);
          Enqueue (Token (lit "a") clock) true],
         [Enqueue Done false].
  split; reflexivity.
Defined.

(** C6, as amended, on the same run. *)
Lemma silent_stop_witness :
  let w := world_with (body_of plain) client_leaves in
  let l1 := [Generate (user_turn [TextPart (lit "hello")] []);
             Enqueue (Token (lit "a") clock) true] in
  let l2 := [Enqueue Done false] in
  effects_of (start_of w (request_of plain))
  = l1 ++ Enqueue (Token (lit "b") clock) false :: l2 /\
  delivered (effects_of (start_of w (request_of plain))) = delivered l1.
Proof.
  intros w l1 l2. split; [reflexivity|].
  apply (silent_stop from_base64 to_base64 positive w (request_of plain) (lit "hello")
           [] l1 l2 (lit "b") clock). reflexivity.
Defined.

(** C7, as stated, fails: the request is accepted and its legacy
    [image] field is present, holding the number 5; no parts are sent, the
    provider is not called, and the stream carries the TypeError. *)
Lemma numeric_image_sends_nothing :
  let w := world_with (body_of numeric_image) (answers ["unused"%string]) in
  value_of (run w) = Ok (StreamResponse stream_headers) /\
  images (request_of numeric_image) = None /\
  image (request_of numeric_image) = Some (JNum 5) /\
  calls (effects_of (run w)) = [] /\
  delivered (effects_of (run w)) = [ErrorEvent msg_replace_not_function].
Proof. repeat split; reflexivity. Defined.

(** C7, as amended, on a request with two images and a legacy image: the
    two images are sent, in order, the first without its data-URI
    prefix. *)
Lemma content_parts_witness :
  let w := world_with (body_of two_images) (answers ["ok"%string]) in
  accepted w (request_of two_images) (lit "hello") /\
  [lit "data:image/png;base64,aGk="; lit "QUJD"] <> [] /\
  images (request_of two_images)
  = Some (JArr (map JStr [lit "data:image/png;base64,aGk="; lit "QUJD"])) /\
  calls (effects_of (run w))
  = [ {| contents :=
           [ {| role := lit "user";
                parts := [TextPart (lit "hello");
                          InlineData (lit "aGk=") (lit "image/jpeg");
                          InlineData (lit "QUJD") (lit "image/jpeg")] |} ];
         tools := Some [] |} ].
Proof.
  intros w.
  assert (Hacc : accepted w (request_of two_images) (lit "hello")) by accept.
  split; [exact Hacc|]. split; [discriminate|]. split; [reflexivity|].
  destruct (proj1 (content_parts from_base64 to_base64 positive w
                     (request_of two_images) (lit "hello") Hacc)
              [lit "data:image/png;base64,aGk="; lit "QUJD"]) as [H | H];
    [discriminate | reflexivity | exact H | vm_compute in H; discriminate H].
Defined.

(** C8 on an Error about the API key. *)
Lemma error_classification_witness :
  let w := world_with (Some JNull) (answers []) in
  contains (lit "API key") (lit "API key not valid") /\
  classify (TError (lit "API key not valid"))
  = (401, lit "API key probleem: API key not valid").
Proof.
  intros w.
  assert (Hc : contains (lit "API key") (lit "API key not valid")).
  { exists [], (lit " not valid"). reflexivity. }
  split; [exact Hc|].
  apply (error_classification from_base64 to_base64 positive w
           (TError (lit "API key not valid"))); [reflexivity | exact Hc].
Defined.

(** ** Further properties of the handler *)

Lemma tokens_of_tokens (its : list stream_item) : forallb is_token (tokens_of its) = true.
Proof.
  induction its as [|[[|c text] stamp|] rest IH]; simpl; assumption || reflexivity.
Qed.

(** What the loop delivers is an initial segment of the Token events of
    the non-empty chunks. *)
Lemma relay_prefix (its : list stream_item) (fail : option thrown) (closed : bool) :
  exists rest,
    tokens_of its = delivered (effects_of (relay its fail closed)) ++ rest.
Proof.
  revert closed. induction its as [|[text stamp|] rest IH]; intros closed.
  - exists []. simpl. destruct fail; reflexivity.
  - destruct text as [|c text]; [exact (IH closed)|]. destruct closed.
    + rewrite relay_chunk_closed. eexists. reflexivity.
    + rewrite relay_chunk_open. destruct (IH false) as [more H].
      exists more. destruct (relay rest fail false) as [[v cl] l].
      unfold effects_of in *. simpl in *. rewrite H. reflexivity.
  - rewrite relay_cancel. exact (IH true).
Qed.

(** The loop leaves the stream open only when it found it open and the
    client never went away. *)
Lemma relay_stays_open (its : list stream_item) (fail : option thrown) (closed : bool) :
  closed_after (relay its fail closed) = false ->
  closed = false /\ ~ In Cancel its.
Proof.
  revert closed. induction its as [|[text stamp|] rest IH]; intros closed H.
  - split; [|intros []]. destruct fail; exact H.
  - destruct text as [|c text].
    + destruct (IH closed H) as [Hc Hn]. split; [exact Hc|].
      intros [Hin | Hin]; [discriminate | contradiction].
    + destruct closed; [rewrite relay_chunk_closed in H; discriminate|].
      rewrite relay_chunk_open in H.
      assert (H' : closed_after (relay rest fail false) = false).
      { destruct (relay rest fail false) as [[v cl] l]. exact H. }
      destruct (IH false H') as [_ Hn]. split; [reflexivity|].
      intros [Hin | Hin]; [discriminate | contradiction].
  - rewrite relay_cancel in H. destruct (IH true H) as [Hc _]. discriminate.
Qed.

Section Producer_facts.

Variable buffer_from_base64 : js_string -> list N.
Variable buffer_to_base64 : list N -> js_string.
Variable greater_than_zero : value -> bool.

Local Abbreviation request_stream' :=
  (request_stream buffer_from_base64 buffer_to_base64 greater_than_zero).
Local Abbreviation start' := (start buffer_from_base64 buffer_to_base64 greater_than_zero).
Local Abbreviation serve' := (serve buffer_from_base64 buffer_to_base64 greater_than_zero).
Local Abbreviation image_part' := (image_part buffer_from_base64 buffer_to_base64).
Local Abbreviation start_eq' :=
  (start_eq buffer_from_base64 buffer_to_base64 greater_than_zero).
Local Abbreviation serve_accepted' :=
  (serve_accepted buffer_from_base64 buffer_to_base64 greater_than_zero).

(** Requesting the stream writes nothing to the client. *)
Lemma request_stream_quiet (w : world) (msg : js_string) (r : request)
    (tls : list tool) (closed : bool) :
  delivered (effects_of (request_stream' w msg r tls closed)) = [] /\
  attempts (effects_of (request_stream' w msg r tls closed)) = [].
Proof.
  destruct (request_stream_trace buffer_from_base64 buffer_to_base64 greater_than_zero
              w msg r tls closed) as [H | [ps [H | H]]];
    rewrite H; split; reflexivity.
Qed.

(** A run whose stream was obtained with the client present, and whose
    client stays: every non-empty chunk is delivered, then the closing
    event. *)
Lemma start_open_run (w : world) (msg : js_string) (r : request) (tls : list tool)
    (s : upstream) (gl : list effect) :
  request_stream' w msg r tls false = (Ok s, false, gl) ->
  ~ In Cancel (items s) ->
  effects_of (start' w msg r tls false)
  = gl ++ map (fun e => Enqueue e true) (tokens_of (items s))
       ++ [Enqueue (closing_event s) true; Close true].
Proof.
  intros H Hc. rewrite start_eq', H, (relay_open _ _ Hc). unfold closing_event.
  destruct (failure s); unfold effects_of; simpl;
    rewrite <- ?app_assoc; reflexivity.
Qed.

Lemma tokens_exclude_done (l : list event) :
  forallb is_token l = true -> ~ In Done l.
Proof.
  induction l as [|e l IH]; simpl; [tauto|].
  intros H. apply andb_true_iff in H as [He Hl].
  intros [E | Hin]; [subst e; discriminate | exact (IH Hl Hin)].
Qed.

Lemma relayed_pre_no_close (pre : list effect) :
  forallb relayed pre = true -> forallb (fun x => negb (is_close x)) pre = true.
Proof.
  induction pre as [|x pre IH]; simpl; [reflexivity|].
  intros H. apply andb_true_iff in H as [Hx H]. rewrite (IH H).
  destruct x; try discriminate; reflexivity.
Qed.

Ltac reject :=
  right; do 3 eexists;
  split; [reflexivity|];
  split; [first [left; reflexivity | right; reflexivity] | split; reflexivity].

Lemma with_request_rejections (w : world) (r : request) (closed : bool) :
  (exists msg,
     message r = Some (JStr msg) /\ msg <> [] /\
     (N.of_nat (List.length msg) <= 100000)%N /\
     model_init w (modelName (aiModel r)) = None) \/
  (exists status fields l,
     with_request buffer_from_base64 buffer_to_base64 greater_than_zero w r closed
     = (Ok (JsonResponse status fields), closed, l) /\
     (status = 400 \/ status = 500) /\
     calls l = [] /\ attempts l = []).
Proof.
  unfold with_request.
  destruct (message r) as [[|b|z|msg|xs|fs]|] eqn:Hm; cbn [truthy negb];
    try reject.
  - destruct b; reject.
  - destruct (negb (Z.eqb z 0)); reject.
  - destruct msg as [|c msg]; cbn [negb]; [reject|].
    destruct (N.ltb message_limit (N.of_nat (List.length (c :: msg)))) eqn:Hlen;
      [reject|].
    destruct (model_init w (modelName (aiModel r))) as [t|] eqn:Hinit.
    + unfold validated, bind, emit. rewrite Hinit. reject.
    + left. exists (c :: msg). apply N.ltb_ge in Hlen.
      split; [reflexivity|]. split; [discriminate|].
      split; [exact Hlen | reflexivity].
Qed.

(** The request is either accepted, or answered with a JSON error of
    status 400 or 500 without any provider call or stream write. *)
Lemma serve_rejections (w : world) :
  (exists r msg, accepted w r msg) \/
  (exists status fields l,
     serve' w = (Ok (JsonResponse status fields), false, l) /\
     (status = 400 \/ status = 500) /\
     calls l = [] /\ attempts l = []).
Proof.
  unfold serve, POST, try_catch.
  destruct (env_key w) as [[|c k]|] eqn:Hk; try reject.
  destruct (trim (c :: k)) as [|c' k'] eqn:Ht; [reject|].
  assert (Hkey : ~ blank_key (env_key w)).
  { rewrite Hk. unfold blank_key. intros Hb. apply trim_nil in Hb. congruence. }
  unfold with_key. unfold bind at 1, emit.
  destruct (body w) as [b|] eqn:Hb; [|reject].
  unfold bind at 1.
  destruct (destructure b) as [r|t] eqn:Hd.
  - destruct (with_request_rejections w r false)
      as [(msg & Hm & Hne & Hlen & Hinit) | (st & fs & l & H & Hst & Hc & Ha)].
    + left. exists r, msg. repeat split; eauto.
    + right. rewrite H. exists st, fs, (ParseBody :: l).
      split; [reflexivity|]. split; [exact Hst|]. split; assumption.
  - destruct b; try discriminate Hd. injection Hd as <-. reject.
Qed.

(** X1. The handler answers every request and never throws: the answer
    is the event stream with its three headers, or a JSON error whose
    status is 400 or 500. The statuses 401, 429 and 503 of the outer
    error path are never returned: failures of the provider happen inside
    the stream producer, which reports them in the stream. *)
Theorem response_statuses (w : world) :
  exists resp,
    value_of (serve' w) = Ok resp /\
    (resp = StreamResponse stream_headers \/
     exists fields, resp = JsonResponse 400 fields \/ resp = JsonResponse 500 fields).
Proof.
  destruct (serve_rejections w) as [(r & msg & Hacc) | (st & fs & l & H & Hst & _)].
  - rewrite (serve_accepted' w r msg Hacc). eexists. split; [reflexivity|].
    left. reflexivity.
  - rewrite H. eexists. split; [reflexivity|]. right. exists fs.
    destruct Hst as [-> | ->]; [left | right]; reflexivity.
Qed.

(** X2. The provider is called, and the outbound stream written to, only
    for accepted requests (usable credential, parsed body, valid message,
    model handle built); and exactly the accepted requests are answered
    with the event stream. *)
Theorem stream_iff_accepted (w : world) :
  ((exists r msg, accepted w r msg) <->
   value_of (serve' w) = Ok (StreamResponse stream_headers)) /\
  (calls (effects_of (serve' w)) <> [] \/ attempts (effects_of (serve' w)) <> [] ->
   exists r msg, accepted w r msg).
Proof.
  destruct (serve_rejections w) as [(r & msg & Hacc) | (st & fs & l & H & _ & Hc & Ha)].
  - split; [|intros _; eauto]. split; [|intros _; eauto].
    intros _. rewrite (serve_accepted' w r msg Hacc). reflexivity.
  - rewrite H. unfold value_of, effects_of. simpl. split.
    + split; [|discriminate]. intros (r & msg & Hacc).
      rewrite (serve_accepted' w r msg Hacc) in H. discriminate.
    + rewrite Hc, Ha. intros [Hn | Hn]; congruence.
Qed.

(** X3. A body that is not valid JSON is answered with status 400 and the
    bad-request body; only the parse was attempted. *)
Theorem malformed_json_is_400 (w : world) :
  ~ blank_key (env_key w) ->
  body w = None ->
  serve' w
  = (Ok (JsonResponse 400
           [ (lit "error", lit "Ongeldig request formaat");
             (lit "hint", lit "Request body moet geldige JSON zijn");
             (lit "debug", lit "JSON parsing failed") ]),
     false, [ParseBody]).
Proof.
  intros Hkey Hb. destruct (usable_key buffer_from_base64 buffer_to_base64 _ Hkey) as (c & k & c' & k' & Hk & Ht).
  unfold serve, POST, try_catch. rewrite Hk. cbv beta iota. rewrite Ht.
  unfold with_key. unfold bind at 1, emit. rewrite Hb. reflexivity.
Qed.

(** X4. When the model handle cannot be built for a request with a valid
    message, the answer has status 500 and names the selected model in its
    debug field; the provider is not called and nothing is streamed. *)
Theorem model_failure_is_500 (w : world) (b : value) (r : request)
    (msg : js_string) (t : thrown) :
  ~ blank_key (env_key w) ->
  body w = Some b ->
  destructure b = Ok r ->
  message r = Some (JStr msg) ->
  msg <> [] ->
  (N.of_nat (List.length msg) <= 100000)%N ->
  model_init w (modelName (aiModel r)) = Some t ->
  serve' w
  = (Ok (JsonResponse 500
           [ (lit "error", lit "Kan AI model niet initialiseren");
             (lit "hint", lit "Controleer of je API key geldig is");
             (lit "debug",
              lit "Model initialization failed for " ++ modelName (aiModel r)) ]),
     false, [ParseBody; GetModel (modelName (aiModel r))]).
Proof.
  intros Hkey Hb Hd Hm Hne Hlen Hinit.
  destruct (usable_key buffer_from_base64 buffer_to_base64 _ Hkey) as (c & k & c' & k' & Hk & Ht).
  unfold serve, POST, try_catch. rewrite Hk. cbv beta iota. rewrite Ht.
  unfold with_key. unfold bind at 1, emit. rewrite Hb.
  unfold bind at 1. rewrite Hd.
  rewrite (with_request_valid buffer_from_base64 buffer_to_base64 greater_than_zero
             w r msg false Hm Hne Hlen).
  unfold validated, bind, emit. rewrite Hinit. reflexivity.
Qed.

(** X5. The two answers of the message validation, for a body that is
    not null: a missing or falsy message (absent, null, false, 0, the
    empty string) gets "Bericht is vereist"; a truthy message that is not
    a string, and a string of more than 100,000 code units, get the
    other text. Both have status 400 and come before the model is
    selected. *)
Theorem message_validation (w : world) (b : value) (r : request) :
  ~ blank_key (env_key w) ->
  body w = Some b ->
  destructure b = Ok r ->
  let required :=
    (Ok (JsonResponse 400 [ (lit "error", lit "Bericht is vereist") ]),
     false, [ParseBody]) in
  let malformed :=
    (Ok (JsonResponse 400
           [ (lit "error",
              lit "Bericht moet een string zijn van maximaal 100.000 karakters") ]),
     false, [ParseBody]) in
  (truthy (message r) = false -> serve' w = required) /\
  (truthy (message r) = true -> (forall s, message r <> Some (JStr s)) ->
   serve' w = malformed) /\
  (forall s, message r = Some (JStr s) ->
     (100000 < N.of_nat (List.length s))%N -> serve' w = malformed).
Proof.
  intros Hkey Hb Hd required malformed.
  destruct (usable_key buffer_from_base64 buffer_to_base64 _ Hkey) as (c & k & c' & k' & Hk & Ht).
  assert (E : serve' w
              = match with_request buffer_from_base64 buffer_to_base64
                        greater_than_zero w r false with
                | (v, cl, l) =>
                    match v with
                    | Ok a => (Ok a, cl, ParseBody :: l)
                    | Throw t => (Ok (outer_catch w t), cl, (ParseBody :: l) ++ [])
                    end
                end).
  { unfold serve, POST, try_catch. rewrite Hk. cbv beta iota. rewrite Ht.
    unfold with_key. unfold bind at 1, emit. rewrite Hb.
    unfold bind at 1. rewrite Hd.
    destruct (with_request buffer_from_base64 buffer_to_base64 greater_than_zero
                w r false) as [[[a|t] cl] l]; reflexivity. }
  rewrite E. unfold with_request. split; [|split].
  - intros Hf. rewrite Hf. reflexivity.
  - intros Ht' Hns. rewrite Ht'.
    destruct (message r) as [[|x|z|s|xs|fs]|]; try reflexivity.
    exfalso. apply (Hns s). reflexivity.
  - intros s Hm Hlen. rewrite Hm. apply N.ltb_lt in Hlen.
    destruct s as [|ch s]; [vm_compute in Hlen; discriminate|].
    cbn [truthy negb]. unfold message_limit. rewrite Hlen. reflexivity.
Qed.

(** X6. In every run whose stream was obtained, the Token events the
    client receives are an initial segment of the provider's non-empty
    chunks, in arrival order: nothing is reordered, invented or skipped
    before the point where the relay stops. *)
Theorem tokens_in_order (w : world) (msg : js_string) (r : request)
    (tls : list tool) (s : upstream) :
  value_of (request_stream' w msg r tls false) = Ok s ->
  exists shown rest ending,
    delivered (effects_of (start' w msg r tls false)) = shown ++ ending /\
    tokens_of (items s) = shown ++ rest /\
    (ending = [] \/ ending = [Done] \/ exists m, ending = [ErrorEvent m]).
Proof.
  intros Hv. rewrite start_eq'.
  pose proof (request_stream_quiet w msg r tls false) as [Hq _].
  destruct (request_stream' w msg r tls false) as [[[res|t] c1] l1];
    unfold value_of, effects_of in Hv, Hq; simpl in Hv, Hq; [|discriminate].
  injection Hv as ->.
  destruct (relay_prefix (items s) (failure s) c1) as [rest Hrest].
  destruct (relay (items s) (failure s) c1) as [[[u|t] c2] l2];
    unfold effects_of in *; simpl in *; rewrite !delivered_app, Hq; simpl.
  - exists (delivered l2), rest, (delivered (final_effects Done c2)).
    split; [reflexivity|]. split; [exact Hrest|]. destruct c2; auto.
  - exists (delivered l2), rest,
      (delivered (final_effects (ErrorEvent (stream_error_message t)) c2)).
    split; [reflexivity|]. split; [exact Hrest|]. destruct c2; simpl; eauto.
Qed.

(** X7. A client that receives the Done event has received every
    non-empty chunk of the provider's sequence, which ended without
    failure while the client was connected throughout. *)
Theorem done_means_complete (w : world) (msg : js_string) (r : request)
    (tls : list tool) :
  In Done (delivered (effects_of (start' w msg r tls false))) ->
  exists s,
    value_of (request_stream' w msg r tls false) = Ok s /\
    failure s = None /\
    ~ In Cancel (items s) /\
    delivered (effects_of (start' w msg r tls false)) = tokens_of (items s) ++ [Done].
Proof.
  rewrite start_eq'.
  pose proof (request_stream_quiet w msg r tls false) as [Hq _].
  destruct (request_stream' w msg r tls false) as [[[s|t] c1] l1];
    unfold value_of, effects_of in *; simpl in *.
  - destruct (relay_prefix (items s) (failure s) c1) as [rest Hrest].
    assert (Htok : ~ In Done (delivered (effects_of (relay (items s) (failure s) c1)))).
    { apply tokens_exclude_done.
      pose proof (tokens_of_tokens (items s)) as Ht. rewrite Hrest in Ht.
      rewrite forallb_app in Ht. apply andb_true_iff in Ht. apply Ht. }
    pose proof (relay_stays_open (items s) (failure s) c1) as Hopen.
    destruct (relay (items s) (failure s) c1) as [[[u|t] c2] l2] eqn:Hr;
      unfold effects_of, closed_after in *; simpl in *;
      rewrite !delivered_app, Hq; simpl; intros Hin; apply in_app_or in Hin.
    + destruct Hin as [Hin | Hin]; [contradiction|].
      destruct c2; [destruct Hin|].
      destruct (Hopen eq_refl) as [-> Hc].
      rewrite (relay_open _ _ Hc) in Hr. injection Hr as Hu Hl.
      exists s. split; [reflexivity|].
      split; [destruct (failure s); [discriminate | reflexivity]|].
      split; [exact Hc|]. rewrite <- Hl, delivered_accepted. reflexivity.
    + destruct Hin as [Hin | Hin]; [contradiction|].
      destruct c2; simpl in Hin; [destruct Hin|].
      destruct Hin as [Hin | []]. discriminate.
  - rewrite delivered_app, Hq. simpl. destruct c1; simpl; intros Hin;
      [destruct Hin | destruct Hin as [Hin | []]; discriminate].
Qed.

(** X8. When the provider's sequence fails part-way and the client is
    still connected, the client has received the Token events of all the
    non-empty chunks that came before, followed by one Error event, and no
    Done event. The Error event carries the message of an Error instance,
    and the fixed text "Streaming error occurred" for any other thrown
    value. *)
Theorem upstream_failure_reported (w : world) (msg : js_string) (r : request)
    (tls : list tool) (s : upstream) (t : thrown) :
  value_of (request_stream' w msg r tls false) = Ok s ->
  closed_after (request_stream' w msg r tls false) = false ->
  ~ In Cancel (items s) ->
  failure s = Some t ->
  delivered (effects_of (start' w msg r tls false))
  = tokens_of (items s) ++ [ErrorEvent (stream_error_message t)] /\
  (forall m, t = TError m -> stream_error_message t = m) /\
  ((forall m, t <> TError m) ->
   stream_error_message t = lit "Streaming error occurred").
Proof.
  intros Hv Hc Hn Hf. split; [|split].
  - pose proof (request_stream_quiet w msg r tls false) as [Hq _].
    pose proof (start_open_run w msg r tls s) as Hrun.
    destruct (request_stream' w msg r tls false) as [[v c] gl].
    unfold value_of, closed_after, effects_of in Hv, Hc, Hq. simpl in Hv, Hc, Hq.
    subst v c. rewrite (Hrun gl eq_refl Hn), !delivered_app, Hq, delivered_accepted.
    unfold closing_event. rewrite Hf. reflexivity.
  - intros m ->. reflexivity.
  - intros H. destruct t as [m| |]; [exfalso; apply (H m) |  |]; reflexivity.
Qed.

(** X9. A successful fallback is invisible to the client: when the first
    call of a text-only request is refused for want of search grounding,
    [useGrounding] being truthy, and the retry yields a stream that ends
    normally with the client connected, the run is the two calls, the
    Token events of the retry's chunks, and Done; no Error event is
    written. *)
Theorem fallback_transparent (w : world) (msg : js_string) (r : request)
    (t : thrown) (s : upstream) :
  let tls := tools_for (aiModel r) (useGrounding r) in
  let cfg := user_turn [TextPart msg] tls in
  has_images greater_than_zero (images r) = false ->
  truthy (image r) = false ->
  provider w 0%nat cfg = Rejects false t ->
  retries (useGrounding r) t = true ->
  provider w 1%nat (without_tools cfg) = Resolves s ->
  failure s = None ->
  ~ In Cancel (items s) ->
  effects_of (start' w msg r tls false)
  = [Generate cfg; Generate (without_tools cfg)]
    ++ map (fun e => Enqueue e true) (tokens_of (items s))
    ++ [Enqueue Done true; Close true].
Proof.
  intros tls cfg Hi Him Hp Hr Hp1 Hf Hn.
  assert (E : request_stream' w msg r tls false
              = (Ok s, false, [Generate cfg; Generate (without_tools cfg)])).
  { rewrite (request_stream_text_only buffer_from_base64 buffer_to_base64
               greater_than_zero w msg r tls false Hi Him).
    fold cfg. rewrite (fallback_retry _ _ _ false _ _ Hp Hr), Hp1. reflexivity. }
  rewrite (start_open_run w msg r tls s _ E Hn). unfold closing_event. rewrite Hf.
  reflexivity.
Qed.

(** X10. When the retry fails too, the client is told of the retry's
    failure, not of the refusal that caused the retry: for every request
    whose parts were built, the producer makes the two calls and then
    attempts exactly one write, the Error event with the second failure's
    message, which is delivered and followed by the close when the client
    is still connected. *)
Theorem retry_failure_reported (w : world) (msg : js_string) (r : request)
    (ps : list part) (gone gone' : bool) (t t' : thrown) :
  let tls := tools_for (aiModel r) (useGrounding r) in
  let turn := [ {| role := lit "user"; parts := ps |} ] in
  let cfg := {| contents := turn; tools := Some tls |} in
  let cfg' := {| contents := turn; tools := None |} in
  built_parts buffer_from_base64 buffer_to_base64 greater_than_zero msg r = Some ps ->
  provider w 0%nat cfg = Rejects gone t ->
  retries (useGrounding r) t = true ->
  provider w 1%nat cfg' = Rejects gone' t' ->
  effects_of (start' w msg r tls false)
  = [Generate cfg; Generate cfg']
    ++ (if gone || gone'
        then [Enqueue (ErrorEvent (stream_error_message t')) false]
        else [Enqueue (ErrorEvent (stream_error_message t')) true; Close true]) /\
  attempts (effects_of (start' w msg r tls false))
  = [ErrorEvent (stream_error_message t')].
Proof.
  intros tls turn cfg cfg' Hps Hp Hr Hp1.
  assert (E : effects_of (start' w msg r tls false)
              = [Generate cfg; Generate cfg']
                ++ (if gone || gone'
                    then [Enqueue (ErrorEvent (stream_error_message t')) false]
                    else [Enqueue (ErrorEvent (stream_error_message t')) true;
                          Close true])).
  { rewrite start_eq'.
    rewrite (request_stream_built buffer_from_base64 buffer_to_base64
               greater_than_zero w msg r tls false ps Hps).
    change (user_turn ps tls) with cfg.
    rewrite (fallback_retry _ _ _ false _ _ Hp Hr).
    change (without_tools cfg) with cfg'. rewrite Hp1.
    destruct gone, gone'; reflexivity. }
  split; [exact E|]. rewrite E. destruct (gone || gone'); reflexivity.
Qed.

(** X11. A failure of the provider call never becomes an HTTP error
    status. For an accepted text-only request whose call is rejected and
    not retried, the response is still the event stream, and its effects
    are the body parse, the model construction, the one call, and one
    accepted Error event followed by the close. *)
Theorem provider_failure_in_stream (w : world) (r : request) (msg : js_string)
    (t : thrown) :
  let cfg := user_turn [TextPart msg] (tools_for (aiModel r) (useGrounding r)) in
  accepted w r msg ->
  has_images greater_than_zero (images r) = false ->
  truthy (image r) = false ->
  provider w 0%nat cfg = Rejects false t ->
  retries (useGrounding r) t = false ->
  serve' w
  = (Ok (StreamResponse stream_headers), true,
     [ParseBody; GetModel (modelName (aiModel r)); Generate cfg;
      Enqueue (ErrorEvent (stream_error_message (rethrown (useGrounding r) t))) true;
      Close true]).
Proof.
  intros cfg Hacc Hi Him Hp Hr.
  rewrite (serve_accepted' w r msg Hacc), start_eq'.
  rewrite (request_stream_text_only buffer_from_base64 buffer_to_base64
             greater_than_zero w msg r _ false Hi Him).
  fold cfg. rewrite (fallback_no_retry _ _ _ false _ _ Hp Hr). reflexivity.
Qed.

(** X12. When the [images] array holds an element that is not a string,
    the provider is never called: building the parts throws a TypeError,
    and the run consists of one accepted Error event and the close. *)
Theorem bad_image_no_call (w : world) (msg : js_string) (r : request)
    (tls : list tool) (xs : list value) :
  images r = Some (JArr xs) ->
  forallb is_js_string xs = false ->
  exists m,
    effects_of (start' w msg r tls false) = [Enqueue (ErrorEvent m) true; Close true] /\
    (m = msg_replace_not_function \/ m = msg_replace_of_null).
Proof.
  intros Hi Hbad. destruct (map_image_parts_fails buffer_from_base64 buffer_to_base64 xs false Hbad) as [m [Hm Hor]].
  exists m. split; [|exact Hor].
  assert (E : request_stream' w msg r tls false = (Throw (TError m), false, [])).
  { unfold request_stream. rewrite Hi.
    destruct xs as [|x xs]; [discriminate Hbad|]. cbn [has_images images_map].
    apply bind_throw. exact Hm. }
  rewrite start_eq', E. reflexivity.
Qed.

(** X13. The search tool is only ever sent to the legacy model: if a
    provider call of an accepted request carries it, the model handle of
    that request was built for gemini-2.0-flash-exp. *)
Theorem search_only_on_legacy_model (w : world) (r : request) (msg : js_string)
    (cfg : request_config) :
  accepted w r msg ->
  In cfg (calls (effects_of (serve' w))) ->
  has_search cfg = true ->
  exists rest, effects_of (serve' w) = ParseBody :: GetModel legacy_model :: rest.
Proof.
  intros Hacc Hin Hs.
  assert (Hint : aiModel r = JStr (lit "internet")).
  { assert (Hfirst : forall ps,
      has_search (user_turn ps (tools_for (aiModel r) (useGrounding r))) = true ->
      aiModel r = JStr (lit "internet")).
    { intros ps. unfold has_search, user_turn. cbn [tools].
      destruct (tools_for_search (aiModel r) (useGrounding r)) as [[_ [H _]] | [-> _]];
        [intros _; exact H | discriminate]. }
    destruct (accepted_calls buffer_from_base64 buffer_to_base64 greater_than_zero
                w r msg Hacc) as [H | [ps H]]; [rewrite H in Hin; destruct Hin|].
    cbv zeta in H. destruct H as [H | H]; rewrite H in Hin; simpl in Hin.
    - destruct Hin as [<- | []]. exact (Hfirst ps Hs).
    - destruct Hin as [<- | [<- | []]]; [exact (Hfirst ps Hs) | discriminate Hs]. }
  rewrite (serve_accepted' w r msg Hacc), Hint. eexists. reflexivity.
Qed.

(** X14. Every run of the producer attempts exactly one closing event,
    Done or Error, and that attempt is its last write: the writes are
    Token events followed by the one closing event. *)
Theorem one_closing_attempt (w : world) (msg : js_string) (r : request)
    (tls : list tool) :
  exists toks e,
    attempts (effects_of (start' w msg r tls false)) = toks ++ [e] /\
    forallb is_token toks = true /\
    (e = Done \/ exists m, e = ErrorEvent m).
Proof.
  destruct (start_trace buffer_from_base64 buffer_to_base64 greater_than_zero
              w msg r tls false)
    as [pre [Hpre [(e & c & He & H) | (text & stamp & H)]]];
    rewrite H, attempts_app; destruct (relayed_delivered pre Hpre) as [Htok Hatt].
  - exists (attempts pre), e. split; [destruct c; reflexivity|].
    split; [rewrite Hatt; exact Htok | apply terminating_cases; exact He].
  - exists (attempts pre ++ [Token text stamp]), Done.
    split; [rewrite <- app_assoc; reflexivity|].
    split; [|left; reflexivity].
    rewrite forallb_app, Hatt, Htok. reflexivity.
Qed.

Ltac split_tail mid H :=
  destruct mid as [|? [|? [|? ?]]]; simpl in H; try discriminate H;
  injection H as H; repeat (let H' := fresh in injection H as H' H);
  subst; try discriminate.

(** X15. The producer calls [controller.close()] at most once, never on a
    stream that is already closed, and only as its last action, right
    after the stream accepted the closing event. *)
Theorem close_discipline (w : world) (msg : js_string) (r : request)
    (tls : list tool) (l1 l2 : list effect) (ok : bool) :
  effects_of (start' w msg r tls false) = l1 ++ Close ok :: l2 ->
  ok = true /\ l2 = [] /\
  exists l0 e,
    l1 = l0 ++ [Enqueue e true] /\ is_terminating e = true /\
    forallb relayed l0 = true.
Proof.
  intros Hl.
  destruct (start_trace buffer_from_base64 buffer_to_base64 greater_than_zero
              w msg r tls false)
    as [pre [Hpre [(e & c & He & H) | (text & stamp & H)]]]; rewrite H in Hl;
    destruct (split_behind is_close pre _ l1 l2 (Close ok)
                (relayed_pre_no_close pre Hpre) eq_refl Hl) as [mid [Hl1 Hmid]].
  - destruct c; cbn [final_effects] in Hmid; split_tail mid Hmid.
    split; [reflexivity|]. split; [reflexivity|].
    exists pre, e. split; [reflexivity|]. split; assumption.
  - split_tail mid Hmid.
Qed.

End Producer_facts.

(** ** The further properties on concrete requests *)

Ltac usable := intros H; vm_compute in H; discriminate H.

(** X2 on a plain request. *)
Lemma stream_iff_accepted_witness :
  let w := world_with (body_of plain) (answers ["hi"%string]) in
  accepted w (request_of plain) (lit "hello") /\
  value_of (run w) = Ok (StreamResponse stream_headers).
Proof.
  intros w.
  assert (Hacc : accepted w (request_of plain) (lit "hello")) by accept.
  split; [exact Hacc|].
  apply (proj1 (stream_iff_accepted from_base64 to_base64 positive w)). eauto.
Defined.

(** X3 on a body that does not parse. *)
Lemma malformed_json_witness :
  let w := world_with None (answers []) in
  ~ blank_key (env_key w) /\ body w = None /\
  effects_of (run w) = [ParseBody] /\
  (exists fields, value_of (run w) = Ok (JsonResponse 400 fields)).
Proof.
  intros w. assert (Hkey : ~ blank_key (env_key w)) by usable.
  split; [exact Hkey|]. split; [reflexivity|].
  unfold run. rewrite (malformed_json_is_400 from_base64 to_base64 positive w Hkey eq_refl).
  split; [reflexivity | eexists; reflexivity].
Defined.

(** X4 on a provider client that knows no such model. *)
Lemma model_failure_witness :
  ~ blank_key (env_key no_model) /\
  body no_model = body_of plain /\
  message (request_of plain) = Some hello /\
  lit "hello" <> [] /\
  (N.of_nat (List.length (lit "hello")) <= 100000)%N /\
  model_init no_model (modelName (aiModel (request_of plain)))
  = Some (TError (lit "unknown model")) /\
  effects_of (run no_model) = [ParseBody; GetModel standard_model].
Proof.
  assert (Hkey : ~ blank_key (env_key no_model)) by usable.
  assert (Hlen : (N.of_nat (List.length (lit "hello")) <= 100000)%N)
    by (vm_compute; discriminate).
  split; [exact Hkey|]. split; [reflexivity|]. split; [reflexivity|].
  split; [discriminate|]. split; [exact Hlen|]. split; [reflexivity|].
  unfold run.
  rewrite (model_failure_is_500 from_base64 to_base64 positive no_model _
             (request_of plain) (lit "hello") (TError (lit "unknown model"))
             Hkey eq_refl eq_refl eq_refl ltac:(discriminate) Hlen eq_refl).
  reflexivity.
Defined.

(** X5 on a message of 100,001 code units. *)
Lemma message_validation_witness :
  let w := world_with (body_of too_long) (answers []) in
  let s := repeat 97 (N.to_nat 100001) in
  ~ blank_key (env_key w) /\
  message (request_of too_long) = Some (JStr s) /\
  (100000 < N.of_nat (List.length s))%N /\
  effects_of (run w) = [ParseBody].
Proof.
  intros w s. assert (Hkey : ~ blank_key (env_key w)) by usable.
  assert (Hlen : (100000 < N.of_nat (List.length s))%N) by (vm_compute; reflexivity).
  split; [exact Hkey|]. split; [reflexivity|]. split; [exact Hlen|].
  unfold run.
  rewrite (proj2 (proj2 (message_validation from_base64 to_base64 positive w _
                           (request_of too_long) Hkey eq_refl eq_refl))
             s eq_refl Hlen).
  reflexivity.
Defined.

(** X6 on the client that leaves after the first chunk. *)
Lemma tokens_in_order_witness :
  let w := world_with (body_of plain) client_leaves in
  let s := {| items := [Chunk (lit "a") clock; Cancel;
                        Chunk (lit "b") clock; Chunk (lit "c") clock];
              failure := None |} in
  value_of (request_stream from_base64 to_base64 positive w (lit "hello")
              (request_of plain) [] false) = Ok s /\
  exists shown rest ending,
    delivered (effects_of (start_of w (request_of plain))) = shown ++ ending /\
    tokens_of (items s) = shown ++ rest /\
    (ending = [] \/ ending = [Done] \/ exists m, ending = [ErrorEvent m]).
Proof.
  intros w s. split; [reflexivity|].
  exact (tokens_in_order from_base64 to_base64 positive w (lit "hello")
           (request_of plain) [] s eq_refl).
Defined.

(** X7 on a request answered with three chunks. *)
Lemma done_means_complete_witness :
  let w := world_with (body_of plain) (answers ["a"; ""; "b"]%string) in
  In Done (delivered (effects_of (start_of w (request_of plain)))) /\
  exists s,
    value_of (request_stream from_base64 to_base64 positive w (lit "hello")
                (request_of plain) [] false) = Ok s /\
    failure s = None /\
    ~ In Cancel (items s) /\
    delivered (effects_of (start_of w (request_of plain))) = tokens_of (items s) ++ [Done].
Proof.
  intros w.
  assert (Hin : In Done (delivered (effects_of (start_of w (request_of plain)))))
    by (right; right; left; reflexivity).
  split; [exact Hin|].
  exact (done_means_complete from_base64 to_base64 positive w (lit "hello")
           (request_of plain) [] Hin).
Defined.

(** X8 on a sequence that fails after two chunks. *)
Lemma upstream_failure_witness :
  let w := world_with (body_of plain) breaks_off in
  let s := {| items := [Chunk (lit "a") clock; Chunk (lit "b") clock];
              failure := Some (TError (lit "upstream reset")) |} in
  value_of (request_stream from_base64 to_base64 positive w (lit "hello")
              (request_of plain) [] false) = Ok s /\
  ~ In Cancel (items s) /\
  delivered (effects_of (start_of w (request_of plain)))
  = [Token (lit "a") clock; Token (lit "b") clock; ErrorEvent (lit "upstream reset")].
Proof.
  intros w s.
  assert (Hc : ~ In Cancel (items s)).
  { intros H. simpl in H. intuition discriminate. }
  split; [reflexivity|]. split; [exact Hc|].
  exact (proj1 (upstream_failure_reported from_base64 to_base64 positive w (lit "hello")
                  (request_of plain) [] s (TError (lit "upstream reset"))
                  eq_refl eq_refl Hc eq_refl)).
Defined.

(** X9 on a grounded request of the internet tier whose retry succeeds. *)
Lemma fallback_transparent_witness :
  let w := world_with (body_of internet_grounded) refuses_grounding in
  let cfg := user_turn [TextPart (lit "hello")] [GoogleSearch] in
  provider w 0%nat cfg = Rejects false (TError unsupported) /\
  retries (JBool true) (TError unsupported) = true /\
  delivered (effects_of (start_of w (request_of internet_grounded)))
  = [Token (lit "ok") clock; Done].
Proof.
  intros w cfg. split; [reflexivity|]. split; [reflexivity|].
  assert (Hc : ~ In Cancel (items (text_stream ["ok"%string]))).
  { intros H. simpl in H. intuition discriminate. }
  unfold start_of.
  rewrite (fallback_transparent from_base64 to_base64 positive w (lit "hello")
             (request_of internet_grounded) (TError unsupported)
             (text_stream ["ok"%string])
             eq_refl eq_refl eq_refl eq_refl eq_refl eq_refl Hc).
  reflexivity.
Defined.

(** X10 on a request with two images whose retry fails. *)
Lemma retry_failure_witness :
  let w := world_with (body_of two_images) refuses_twice in
  let ps := [TextPart (lit "hello");
             InlineData (lit "aGk=") (lit "image/jpeg");
             InlineData (lit "QUJD") (lit "image/jpeg")] in
  let turn := [ {| role := lit "user"; parts := ps |} ] in
  built_parts from_base64 to_base64 positive (lit "hello") (request_of two_images)
  = Some ps /\
  provider w 0%nat {| contents := turn; tools := Some [] |}
  = Rejects false (TError unsupported) /\
  retries (useGrounding (request_of two_images)) (TError unsupported) = true /\
  provider w 1%nat {| contents := turn; tools := None |}
  = Rejects false (TError (lit "internal error")) /\
  delivered (effects_of (start_of w (request_of two_images)))
  = [ErrorEvent (lit "internal error")].
Proof.
  intros w ps turn. repeat (split; [reflexivity|]).
  unfold start_of.
  rewrite (proj1 (retry_failure_reported from_base64 to_base64 positive w (lit "hello")
                    (request_of two_images) ps false false (TError unsupported)
                    (TError (lit "internal error"))
                    eq_refl eq_refl eq_refl eq_refl)).
  reflexivity.
Defined.

(** X11 on a provider that is out of quota: the response is the stream,
    not a 429. *)
Lemma provider_failure_witness :
  let w := world_with (body_of plain) out_of_quota in
  accepted w (request_of plain) (lit "hello") /\
  retries (useGrounding (request_of plain)) (TError (lit "quota exceeded")) = false /\
  value_of (run w) = Ok (StreamResponse stream_headers) /\
  delivered (effects_of (run w)) = [ErrorEvent (lit "quota exceeded")].
Proof.
  intros w.
  assert (Hacc : accepted w (request_of plain) (lit "hello")) by accept.
  split; [exact Hacc|]. split; [reflexivity|].
  unfold run.
  rewrite (provider_failure_in_stream from_base64 to_base64 positive w
             (request_of plain) (lit "hello") (TError (lit "quota exceeded"))
             Hacc eq_refl eq_refl eq_refl eq_refl).
  split; reflexivity.
Defined.

(** X12 on an [images] array that holds a number. *)
Lemma bad_image_witness :
  let w := world_with (body_of number_among_images) (answers ["unused"%string]) in
  images (request_of number_among_images) = Some (JArr [JStr (lit "QUJD"); JNum 7]) /\
  forallb is_js_string [JStr (lit "QUJD"); JNum 7] = false /\
  exists m,
    effects_of (start_of w (request_of number_among_images))
    = [Enqueue (ErrorEvent m) true; Close true] /\
    (m = msg_replace_not_function \/ m = msg_replace_of_null).
Proof.
  intros w. split; [reflexivity|]. split; [reflexivity|].
  exact (bad_image_no_call from_base64 to_base64 positive w (lit "hello")
           (request_of number_among_images) [] [JStr (lit "QUJD"); JNum 7]
           eq_refl eq_refl).
Defined.

(** X13 on a grounded request of the internet tier. *)
Lemma search_only_on_legacy_witness :
  let w := world_with (body_of internet_grounded) (answers ["hi"%string]) in
  let cfg := user_turn [TextPart (lit "hello")] [GoogleSearch] in
  accepted w (request_of internet_grounded) (lit "hello") /\
  In cfg (calls (effects_of (run w))) /\
  has_search cfg = true /\
  exists rest, effects_of (run w) = ParseBody :: GetModel legacy_model :: rest.
Proof.
  intros w cfg.
  assert (Hacc : accepted w (request_of internet_grounded) (lit "hello")) by accept.
  assert (Hin : In cfg (calls (effects_of (run w)))) by (left; reflexivity).
  split; [exact Hacc|]. split; [exact Hin|]. split; [reflexivity|].
  exact (search_only_on_legacy_model from_base64 to_base64 positive w
           (request_of internet_grounded) (lit "hello") cfg Hacc Hin eq_refl).
Defined.

(** X15 on a request answered with one chunk. *)
Lemma close_discipline_witness :
  let w := world_with (body_of plain) (answers ["a"%string]) in
  let l1 := [Generate (user_turn [TextPart (lit "hello")] []);
             Enqueue (Token (lit "a") clock) true; Enqueue Done true] in
  effects_of (start_of w (request_of plain)) = l1 ++ Close true :: [] /\
  exists l0 e,
    l1 = l0 ++ [Enqueue e true] /\ is_terminating e = true /\
    forallb relayed l0 = true.
Proof.
  intros w l1. split; [reflexivity|].
  apply (close_discipline from_base64 to_base64 positive w (lit "hello")
           (request_of plain) [] l1 [] true). reflexivity.
Defined.
